(** * AssessmentQueuePage: the assessment workflow of the review queue

    A shallow embedding of [src/pages/AssessmentQueuePage.tsx].  The React
    component keeps six pieces of state, talks to [ideaService] through three
    asynchronous calls, and reports to the reviewer through toasts.  Handlers
    are embedded as small programs ([Proc]) whose suspend points are the
    source's [await]s; a run-to-completion scheduler ([run_sync], [fire])
    gives them the semantics of the JavaScript event loop. *)

From stdpp Require Import gmap strings list.

(** ** Data model *)

(** [Idea['status']] of [../data/ideas]. *)
Inductive Status := submitted | under_review | assessed | rejected.

#[global] Instance Status_eq_dec : EqDecision Status.
Proof. solve_decision. Defined.

(** The fields of [Idea] that the handlers read.  The remaining fields
    ([description], [expectedBenefits], [aiCapabilityArea], [businessFunction],
    [submitterName], [createdAt]) occur in the JSX markup only. *)
Module Idea.
Record t := mk { id : string; status : Status; title : string }.

#[global] Instance eq_dec : EqDecision t.
Proof. solve_decision. Defined.
End Idea.

(** JavaScript's [ToBoolean] on the values of a type: what [every] applies to
    the result of its callback. *)
Class ToBoolean (A : Type) := to_boolean : A → bool.

(** The outcome of a promise. *)
Inductive Settled (A : Type) :=
| Fulfilled (a : A)
| Rejected.
Arguments Fulfilled {A} a.
Arguments Rejected {A}.

(** Modelled from the spec: the declaration of [ScoreLevel] in [../data/ideas]
    is missing; the spec calls it an ordered discrete rating and its scenario
    uses the levels High and Medium.  The three levels below, carried by
    non-empty string literals (hence truthy), instantiate the parameter of the
    development wherever a concrete level is needed. *)
Inductive Level := Low | Medium | High.

Definition Level_to_boolean : ToBoolean Level := λ _, true.

(** The double quote character, used by the success toast. *)
Definition dquote : string :=
  String (Ascii.Ascii false true false false false true false false) EmptyString.

Section AssessmentQueuePage.

(** [ScoreLevel] is declared in [../data/ideas], outside this file: it is
    taken as a parameter, together with the truthiness of its values. *)
Context {ScoreLevel : Type} `{!ToBoolean ScoreLevel}.

(** The object literal passed to [ideaService.submitAssessment].  A property
    read such as [scores.businessGrowth] yields [undefined] when the key is
    absent, hence the options. *)
Record AssessmentRecord := {
  businessGrowth : option ScoreLevel;
  costEfficiency : option ScoreLevel;
  businessResilience : option ScoreLevel;
  businessAgility : option ScoreLevel;
  technicalFeasibility : option ScoreLevel;
  internalReadiness : option ScoreLevel;
  externalReadiness : option ScoreLevel;
  assessment_rationales : gmap string string;
  assessedBy : string
}.

(** The [useState] cells of the component. *)
Record State := {
  pendingIdeas : list Idea.t;
  loading : bool;
  selectedIdea : option Idea.t;
  submitting : bool;
  scores : gmap string ScoreLevel;
  rationales : gmap string string
}.

(** State at first render. *)
Definition initial : State :=
  {| pendingIdeas := []; loading := true; selectedIdea := None;
     submitting := false; scores := ∅; rationales := ∅ |}.

(** ** The idea store

    [ideaService] is an external collaborator; only the calls that the
    component dispatches are modelled, with the type of their reply. *)
Inductive StoreCall :=
| getIdeasByStatus (s : Status)
| updateIdeaStatus (id : string) (s : Status)
| submitAssessment (id : string) (r : AssessmentRecord).

Definition Reply (c : StoreCall) : Type :=
  match c with
  | getIdeasByStatus _ => list Idea.t
  | updateIdeaStatus _ _ => unit
  | submitAssessment _ _ => unit
  end.

(** ** Handler programs *)

(** The body of an async function: state setters, toasts, calls of another
    async function that are not awaited, and awaited store calls. *)
Inductive Proc :=
| Done
| Throw
| SetState (f : State → State) (k : Proc)
| ShowToast (message kind : string) (k : Proc)
| Spawn (child : Proc) (k : Proc)
| Await (c : StoreCall) (k : Settled (Reply c) → Proc).

(** Sequential composition: an exception skips the rest. *)
Fixpoint seq (p q : Proc) : Proc :=
  match p with
  | Done => q
  | Throw => Throw
  | SetState f k => SetState f (seq k q)
  | ShowToast m kd k => ShowToast m kd (seq k q)
  | Spawn c k => Spawn c (seq k q)
  | Await c k => Await c (λ r, seq (k r) q)
  end.

(** [try { p } catch { h }].  A spawned child is not awaited, so its
    rejection does not reach the handler. *)
Fixpoint catch (p h : Proc) : Proc :=
  match p with
  | Done => Done
  | Throw => h
  | SetState f k => SetState f (catch k h)
  | ShowToast m kd k => ShowToast m kd (catch k h)
  | Spawn c k => Spawn c (catch k h)
  | Await c k => Await c (λ r, catch (k r) h)
  end.

(** [try { p } finally { fin }]: [fin] runs on both exits and an exception
    is thrown again after it. *)
Fixpoint finally (p fin : Proc) : Proc :=
  match p with
  | Done => fin
  | Throw => seq fin Throw
  | SetState f k => SetState f (finally k fin)
  | ShowToast m kd k => ShowToast m kd (finally k fin)
  | Spawn c k => Spawn c (finally k fin)
  | Await c k => Await c (λ r, finally (k r) fin)
  end.

Definition try_catch_finally (body handler fin : Proc) : Proc :=
  finally (catch body handler) fin.

(** The setters returned by [useState]. *)
Definition setPendingIdeas (v : list Idea.t) : Proc → Proc :=
  SetState (λ st, {| pendingIdeas := v; loading := loading st;
                     selectedIdea := selectedIdea st; submitting := submitting st;
                     scores := scores st; rationales := rationales st |}).
Definition setLoading (v : bool) : Proc → Proc :=
  SetState (λ st, {| pendingIdeas := pendingIdeas st; loading := v;
                     selectedIdea := selectedIdea st; submitting := submitting st;
                     scores := scores st; rationales := rationales st |}).
Definition setSelectedIdea (v : option Idea.t) : Proc → Proc :=
  SetState (λ st, {| pendingIdeas := pendingIdeas st; loading := loading st;
                     selectedIdea := v; submitting := submitting st;
                     scores := scores st; rationales := rationales st |}).
Definition setSubmitting (v : bool) : Proc → Proc :=
  SetState (λ st, {| pendingIdeas := pendingIdeas st; loading := loading st;
                     selectedIdea := selectedIdea st; submitting := v;
                     scores := scores st; rationales := rationales st |}).
(** [setScores(prev => f(prev))]; [setScores(v)] is the constant update. *)
Definition setScoresWith (f : gmap string ScoreLevel → gmap string ScoreLevel)
  : Proc → Proc :=
  SetState (λ st, {| pendingIdeas := pendingIdeas st; loading := loading st;
                     selectedIdea := selectedIdea st; submitting := submitting st;
                     scores := f (scores st); rationales := rationales st |}).
Definition setScores (v : gmap string ScoreLevel) : Proc → Proc :=
  setScoresWith (λ _, v).
Definition setRationalesWith (f : gmap string string → gmap string string)
  : Proc → Proc :=
  SetState (λ st, {| pendingIdeas := pendingIdeas st; loading := loading st;
                     selectedIdea := selectedIdea st; submitting := submitting st;
                     scores := scores st; rationales := f (rationales st) |}).
Definition setRationales (v : gmap string string) : Proc → Proc :=
  setRationalesWith (λ _, v).

Definition showToast (message kind : string) : Proc → Proc :=
  ShowToast message kind.

(** [f()] for an async [f], without [await]. *)
Definition call (f : Proc) : Proc → Proc := Spawn f.

Notation "s ;> k" := (s k) (at level 100, right associativity, only parsing).
Notation "x <~ 'await' c ;> k" :=
  (Await c (λ r, match r with Fulfilled x => k | Rejected => Throw end))
  (at level 100, c at next level, right associativity, only parsing).

(** Lines 24-30. *)
Definition fetchPendingIdeas : Proc :=
  setLoading true ;>
  submitted_ <~ await (getIdeasByStatus submitted) ;>
  underReview <~ await (getIdeasByStatus under_review) ;>
  setPendingIdeas (submitted_ ++ underReview) ;>
  setLoading false ;>
  Done.

(** Lines 32-41. *)
Definition handleSelectIdea (idea : Idea.t) : Proc :=
  setSelectedIdea (Some idea) ;>
  setScores ∅ ;>
  setRationales ∅ ;>
  if decide (Idea.status idea = submitted) then
    _ <~ await (updateIdeaStatus (Idea.id idea) under_review) ;>
    call fetchPendingIdeas ;>
    Done
  else Done.

(** Lines 43-45. *)
Definition handleScoreChange (dimension : string) (score : ScoreLevel) : Proc :=
  setScoresWith (λ prev, <[dimension := score]> prev) ;> Done.

(** Lines 47-49. *)
Definition handleRationaleChange (dimension rationale : string) : Proc :=
  setRationalesWith (λ prev, <[dimension := rationale]> prev) ;> Done.

(** Lines 52-55. *)
Definition requiredDimensions : list string :=
  [ "businessGrowth"; "costEfficiency"; "businessResilience"; "businessAgility";
    "technicalFeasibility"; "internalReadiness"; "externalReadiness" ].

(** [scores[dim]] coerced to a boolean: [undefined] is falsy. *)
Definition scored (sc : gmap string ScoreLevel) (dim : string) : bool :=
  match sc !! dim with
  | Some level => to_boolean level
  | None => false
  end.

(** Lines 51-57; the closure reads [scores] of the current render. *)
Definition isComplete (st : State) : bool :=
  forallb (scored (scores st)) requiredDimensions.

(** Line 76. *)
Definition attribution : string := "Assessment Team".

(** Lines 67-77: the argument of [ideaService.submitAssessment]. *)
Definition assessmentOf (st : State) : AssessmentRecord :=
  {| businessGrowth := scores st !! "businessGrowth";
     costEfficiency := scores st !! "costEfficiency";
     businessResilience := scores st !! "businessResilience";
     businessAgility := scores st !! "businessAgility";
     technicalFeasibility := scores st !! "technicalFeasibility";
     internalReadiness := scores st !! "internalReadiness";
     externalReadiness := scores st !! "externalReadiness";
     assessment_rationales := rationales st;
     assessedBy := attribution |}.

(** Lines 59-89.  [st] is the render whose closure the handler belongs to:
    [selectedIdea], [scores] and [rationales] are read from it. *)
Definition handleSubmitAssessment (st : State) : Proc :=
  match selectedIdea st, isComplete st with
  | Some idea, true =>
      setSubmitting true ;>
      try_catch_finally
        (_ <~ await (submitAssessment (Idea.id idea) (assessmentOf st)) ;>
         showToast (dquote +:+ Idea.title idea +:+ dquote +:+ " has been assessed!")
                   "success" ;>
         setSelectedIdea None ;>
         setScores ∅ ;>
         setRationales ∅ ;>
         call fetchPendingIdeas ;>
         Done)
        (showToast "Failed to submit assessment" "error" ;> Done)
        (setSubmitting false ;> Done)
  | _, _ =>
      showToast "Please score all dimensions before submitting" "warning" ;>
      Done
  end.

(** Line 197: the Cancel button's [onClick]. *)
Definition handleCancel : Proc :=
  setSelectedIdea None ;> Done.

(** ** The event loop *)

(** A suspended async function: the call it awaits and what it does with
    the outcome. *)
Record Task := { awaited : StoreCall; cont : Settled (Reply awaited) → Proc }.

(** The page at rest between two events: committed state, suspended
    functions, and the calls and toasts issued so far, oldest first. *)
Record World := {
  ui : State;
  tasks : list Task;
  trace : list StoreCall;
  toasts : list (string * string)
}.

(** Run a program up to its suspension.  The store call of an [await] is
    dispatched before the function suspends; a rejected promise that nobody
    awaits is dropped. *)
Fixpoint run_sync (p : Proc) (w : World) : World :=
  match p with
  | Done => w
  | Throw => w
  | SetState f k =>
      run_sync k {| ui := f (ui w); tasks := tasks w;
                    trace := trace w; toasts := toasts w |}
  | ShowToast m kd k =>
      run_sync k {| ui := ui w; tasks := tasks w;
                    trace := trace w; toasts := toasts w ++ [(m, kd)] |}
  | Spawn c k => run_sync k (run_sync c w)
  | Await c k =>
      {| ui := ui w; tasks := tasks w ++ [ {| awaited := c; cont := k |} ];
         trace := trace w ++ [c]; toasts := toasts w |}
  end.

(** What the store answers to a call. *)
Definition Oracle : Type := ∀ c : StoreCall, Settled (Reply c).

(** The promise of the [i]th suspended function settles. *)
Definition settle (i : nat) (o : Oracle) (w : World) : World :=
  match tasks w !! i with
  | Some t =>
      run_sync (cont t (o (awaited t)))
               {| ui := ui w; tasks := delete i (tasks w);
                  trace := trace w; toasts := toasts w |}
  | None => w
  end.

(** What can happen to the page. *)
Inductive Event :=
| ClickIdea (idea : Idea.t)
| ScoreChange (dimension : string) (score : ScoreLevel)
| RationaleChange (dimension rationale : string)
| ClickCancel
| ClickSubmit
| Settle (i : nat) (o : Oracle).

(** Lines 91-222: which controls the render offers.  While [loading] only
    the spinner is shown; the queue lists [pendingIdeas]; the panel with the
    score card and the two buttons needs a selection; the Submit button is
    [disabled] when [!isComplete() || submitting]. *)
Definition enabled (e : Event) (w : World) : bool :=
  match e with
  | ClickIdea idea =>
      negb (loading (ui w)) && bool_decide (idea ∈ pendingIdeas (ui w))
  | ScoreChange _ _ | RationaleChange _ _ | ClickCancel =>
      negb (loading (ui w)) && bool_decide (is_Some (selectedIdea (ui w)))
  | ClickSubmit =>
      negb (loading (ui w)) && bool_decide (is_Some (selectedIdea (ui w)))
      && negb (negb (isComplete (ui w)) || submitting (ui w))
  | Settle i _ => bool_decide (i < length (tasks w))
  end.

Definition fire (e : Event) (w : World) : World :=
  match e with
  | ClickIdea idea => run_sync (handleSelectIdea idea) w
  | ScoreChange d s => run_sync (handleScoreChange d s) w
  | RationaleChange d r => run_sync (handleRationaleChange d r) w
  | ClickCancel => run_sync handleCancel w
  | ClickSubmit => run_sync (handleSubmitAssessment (ui w)) w
  | Settle i o => settle i o w
  end.

(** Lines 20-22: the effect of the first render. *)
Definition mount : World :=
  run_sync fetchPendingIdeas
           {| ui := initial; tasks := []; trace := []; toasts := [] |}.

Inductive reachable : World → Prop :=
| reachable_mount : reachable mount
| reachable_fire e w : reachable w → enabled e w = true → reachable (fire e w).

(** A run of events, oldest first, and whether each was offered by the page
    when it happened. *)
Definition fire_all (es : list Event) (w : World) : World :=
  foldl (λ w e, fire e w) w es.

Fixpoint enabled_all (es : list Event) (w : World) : bool :=
  match es with
  | [] => true
  | e :: es => enabled e w && enabled_all es (fire e w)
  end.

(** ** Store calls of a program *)

(** [emits p c]: the call [c] is dispatched somewhere in [p], whatever the
    store answers, spawned children included. *)
Fixpoint emits (p : Proc) (c' : StoreCall) : Prop :=
  match p with
  | Done | Throw => False
  | SetState _ k | ShowToast _ _ k => emits k c'
  | Spawn child k => emits child c' ∨ emits k c'
  | Await c k => c = c' ∨ ∃ r, emits (k r) c'
  end.

(** [raises p]: the synchronous part of [p] ends by throwing.  The rejection
    of a spawned child stays in the child's promise. *)
Fixpoint raises (p : Proc) : Prop :=
  match p with
  | Throw => True
  | Done | Await _ _ => False
  | SetState _ k | ShowToast _ _ k | Spawn _ k => raises k
  end.

Definition is_submit (c : StoreCall) : bool :=
  match c with submitAssessment _ _ => true | _ => false end.

(** Modelled from the spec: [ideaService] is not part of this file.  The
    status that a call makes the store record for an idea:
    [updateIdeaStatus] records its argument, [submitAssessment] marks the
    idea [assessed], a query writes nothing. *)
Definition written (c : StoreCall) : option (string * Status) :=
  match c with
  | getIdeasByStatus _ => None
  | updateIdeaStatus i s => Some (i, s)
  | submitAssessment i _ => Some (i, assessed)
  end.


(** The operations of the workflow, under the names the specification gives
    them, with the source function behind each and the idea it acts on. *)
Inductive Operation :=
| OpListPending
| OpSelectIdea (idea : Idea.t)
| OpCancelSelection
| OpSubmitAssessment.

Definition handler (op : Operation) (st : State) : Proc :=
  match op with
  | OpListPending => fetchPendingIdeas
  | OpSelectIdea idea => handleSelectIdea idea
  | OpCancelSelection => handleCancel
  | OpSubmitAssessment => handleSubmitAssessment st
  end.


(** Submissions dispatched to the store and not settled yet. *)
Definition outstanding_submits (w : World) : nat :=
  length (filter (λ t, is_submit (awaited t) = true) (tasks w)).

(** ** Submissions in flight *)

(** [quiet p]: [p] dispatches no submission, now or after any answer of the
    store, and none of its state updates changes [submitting]. *)
Fixpoint quiet (p : Proc) : Prop :=
  match p with
  | Done | Throw => True
  | SetState f k => (∀ st, submitting (f st) = submitting st) ∧ quiet k
  | ShowToast _ _ k => quiet k
  | Spawn child k => quiet child ∧ quiet k
  | Await c k => is_submit c = false ∧ ∀ r, quiet (k r)
  end.

Definition quiet_task (t : Task) : Prop :=
  is_submit (awaited t) = false ∧ ∀ r, quiet (cont t r).

(** [releases p]: run from any world, [p] leaves [submitting] false,
    dispatches no submission and suspends quiet tasks only. *)
Definition releases (p : Proc) : Prop :=
  ∀ w, ∃ new l,
    submitting (ui (run_sync p w)) = false
    ∧ tasks (run_sync p w) = tasks w ++ new
    ∧ Forall quiet_task new
    ∧ trace (run_sync p w) = trace w ++ l
    ∧ Forall (λ c, is_submit c = false) l.

Definition task_ok (t : Task) : Prop :=
  if is_submit (awaited t) then ∀ r, releases (cont t r)
  else ∀ r, quiet (cont t r).

(** The flag [submitting] counts the submissions in flight. *)
Definition invariant (w : World) : Prop :=
  Forall task_ok (tasks w)
  ∧ outstanding_submits w = if submitting (ui w) then 1 else 0.

(** ** The handlers, one suspension at a time

    The functions below name what is left of each async function after each
    of its [await]s, and the state updates the handlers apply. *)

Definition with_pendingIdeas (v : list Idea.t) (st : State) : State :=
  {| pendingIdeas := v; loading := loading st;
     selectedIdea := selectedIdea st; submitting := submitting st;
     scores := scores st; rationales := rationales st |}.
Definition with_loading (v : bool) (st : State) : State :=
  {| pendingIdeas := pendingIdeas st; loading := v;
     selectedIdea := selectedIdea st; submitting := submitting st;
     scores := scores st; rationales := rationales st |}.
Definition with_selectedIdea (v : option Idea.t) (st : State) : State :=
  {| pendingIdeas := pendingIdeas st; loading := loading st;
     selectedIdea := v; submitting := submitting st;
     scores := scores st; rationales := rationales st |}.
Definition with_submitting (v : bool) (st : State) : State :=
  {| pendingIdeas := pendingIdeas st; loading := loading st;
     selectedIdea := selectedIdea st; submitting := v;
     scores := scores st; rationales := rationales st |}.
Definition with_scores (v : gmap string ScoreLevel) (st : State) : State :=
  {| pendingIdeas := pendingIdeas st; loading := loading st;
     selectedIdea := selectedIdea st; submitting := submitting st;
     scores := v; rationales := rationales st |}.
Definition with_rationales (v : gmap string string) (st : State) : State :=
  {| pendingIdeas := pendingIdeas st; loading := loading st;
     selectedIdea := selectedIdea st; submitting := submitting st;
     scores := scores st; rationales := v |}.

(** Lines 33-35 and lines 80-82. *)
Definition selecting (v : option Idea.t) (st : State) : State :=
  with_rationales ∅ (with_scores ∅ (with_selectedIdea v st)).

(** [fetchPendingIdeas] after its second [await], lines 28-29. *)
Definition after_under_review (sub : list Idea.t) (r : Settled (list Idea.t)) : Proc :=
  match r with
  | Fulfilled ur => setPendingIdeas (sub ++ ur) (setLoading false Done)
  | Rejected => Throw
  end.

(** [fetchPendingIdeas] after its first [await], lines 27-29. *)
Definition after_submitted (r : Settled (list Idea.t)) : Proc :=
  match r with
  | Fulfilled sub => Await (getIdeasByStatus under_review) (after_under_review sub)
  | Rejected => Throw
  end.

(** [handleSelectIdea] after its [await], line 39. *)
Definition after_update (r : Settled ()) : Proc :=
  match r with
  | Fulfilled _ => call fetchPendingIdeas Done
  | Rejected => Throw
  end.

(** [handleSubmitAssessment] after its [await], lines 79-88. *)
Definition after_submit (idea : Idea.t) (r : Settled ()) : Proc :=
  try_catch_finally
    match r with
    | Fulfilled _ =>
        showToast (dquote +:+ Idea.title idea +:+ dquote +:+ " has been assessed!")
                  "success"
          (setSelectedIdea None
             (setScores ∅ (setRationales ∅ (call fetchPendingIdeas Done))))
    | Rejected => Throw
    end
    (showToast "Failed to submit assessment" "error" Done)
    (setSubmitting false Done).

(** The suspended functions that the handlers leave behind. *)
Definition fetch1_task : Task :=
  {| awaited := getIdeasByStatus submitted; cont := after_submitted |}.
Definition fetch2_task (sub : list Idea.t) : Task :=
  {| awaited := getIdeasByStatus under_review; cont := after_under_review sub |}.
Definition update_task (idea : Idea.t) : Task :=
  {| awaited := updateIdeaStatus (Idea.id idea) under_review; cont := after_update |}.
Definition submit_task (idea : Idea.t) (r : AssessmentRecord) : Task :=
  {| awaited := submitAssessment (Idea.id idea) r; cont := after_submit idea |}.

Inductive suspended : Task → Prop :=
| suspended_fetch1 : suspended fetch1_task
| suspended_fetch2 sub : suspended (fetch2_task sub)
| suspended_update idea : suspended (update_task idea)
| suspended_submit idea r : suspended (submit_task idea r).

(** The moves of the page, event by event, with the world each one leads
    to. *)
Inductive transition : Event → World → World → Prop :=
| move_select idea w :
    loading (ui w) = false → idea ∈ pendingIdeas (ui w) →
    transition (ClickIdea idea) w
      {| ui := selecting (Some idea) (ui w);
         tasks := tasks w
                  ++ (if decide (Idea.status idea = submitted)
                      then [update_task idea] else []);
         trace := trace w
                  ++ (if decide (Idea.status idea = submitted)
                      then [updateIdeaStatus (Idea.id idea) under_review] else []);
         toasts := toasts w |}
| move_score d level w :
    loading (ui w) = false → is_Some (selectedIdea (ui w)) →
    transition (ScoreChange d level) w
      {| ui := with_scores (<[d := level]> (scores (ui w))) (ui w);
         tasks := tasks w; trace := trace w; toasts := toasts w |}
| move_rationale d text w :
    loading (ui w) = false → is_Some (selectedIdea (ui w)) →
    transition (RationaleChange d text) w
      {| ui := with_rationales (<[d := text]> (rationales (ui w))) (ui w);
         tasks := tasks w; trace := trace w; toasts := toasts w |}
| move_cancel w :
    loading (ui w) = false → is_Some (selectedIdea (ui w)) →
    transition ClickCancel w
      {| ui := with_selectedIdea None (ui w);
         tasks := tasks w; trace := trace w; toasts := toasts w |}
| move_submit idea w :
    loading (ui w) = false → selectedIdea (ui w) = Some idea →
    isComplete (ui w) = true → submitting (ui w) = false →
    transition ClickSubmit w
      {| ui := with_submitting true (ui w);
         tasks := tasks w ++ [submit_task idea (assessmentOf (ui w))];
         trace := trace w ++ [submitAssessment (Idea.id idea) (assessmentOf (ui w))];
         toasts := toasts w |}
| move_submitted_answered i (o : Oracle) sub w :
    tasks w !! i = Some fetch1_task →
    o (getIdeasByStatus submitted) = Fulfilled sub →
    transition (Settle i o) w
      {| ui := ui w;
         tasks := delete i (tasks w) ++ [fetch2_task sub];
         trace := trace w ++ [getIdeasByStatus under_review];
         toasts := toasts w |}
| move_submitted_failed i (o : Oracle) w :
    tasks w !! i = Some fetch1_task →
    o (getIdeasByStatus submitted) = Rejected →
    transition (Settle i o) w
      {| ui := ui w; tasks := delete i (tasks w);
         trace := trace w; toasts := toasts w |}
| move_under_review_answered i (o : Oracle) sub ur w :
    tasks w !! i = Some (fetch2_task sub) →
    o (getIdeasByStatus under_review) = Fulfilled ur →
    transition (Settle i o) w
      {| ui := with_loading false (with_pendingIdeas (sub ++ ur) (ui w));
         tasks := delete i (tasks w);
         trace := trace w; toasts := toasts w |}
| move_under_review_failed i (o : Oracle) sub w :
    tasks w !! i = Some (fetch2_task sub) →
    o (getIdeasByStatus under_review) = Rejected →
    transition (Settle i o) w
      {| ui := ui w; tasks := delete i (tasks w);
         trace := trace w; toasts := toasts w |}
| move_update_answered i (o : Oracle) idea w :
    tasks w !! i = Some (update_task idea) →
    o (updateIdeaStatus (Idea.id idea) under_review) = Fulfilled () →
    transition (Settle i o) w
      {| ui := with_loading true (ui w);
         tasks := delete i (tasks w) ++ [fetch1_task];
         trace := trace w ++ [getIdeasByStatus submitted];
         toasts := toasts w |}
| move_update_failed i (o : Oracle) idea w :
    tasks w !! i = Some (update_task idea) →
    o (updateIdeaStatus (Idea.id idea) under_review) = Rejected →
    transition (Settle i o) w
      {| ui := ui w; tasks := delete i (tasks w);
         trace := trace w; toasts := toasts w |}
| move_submit_answered i (o : Oracle) idea r w :
    tasks w !! i = Some (submit_task idea r) →
    o (submitAssessment (Idea.id idea) r) = Fulfilled () →
    transition (Settle i o) w
      {| ui := with_submitting false (with_loading true (selecting None (ui w)));
         tasks := delete i (tasks w) ++ [fetch1_task];
         trace := trace w ++ [getIdeasByStatus submitted];
         toasts := toasts w
                   ++ [(dquote +:+ Idea.title idea +:+ dquote +:+ " has been assessed!",
                        "success")] |}
| move_submit_failed i (o : Oracle) idea r w :
    tasks w !! i = Some (submit_task idea r) →
    o (submitAssessment (Idea.id idea) r) = Rejected →
    transition (Settle i o) w
      {| ui := with_submitting false (ui w);
         tasks := delete i (tasks w);
         trace := trace w;
         toasts := toasts w ++ [("Failed to submit assessment", "error")] |}.

(** ** What reaches the store, and what the reviewer is told *)

(** A record with a truthy score for each of the seven dimensions. *)
Definition complete_record (r : AssessmentRecord) : Prop :=
  ∀ field, field ∈ [ businessGrowth r; costEfficiency r; businessResilience r;
                     businessAgility r; technicalFeasibility r;
                     internalReadiness r; externalReadiness r ] →
           ∃ level, field = Some level ∧ to_boolean level = true.

(** The calls the component is written to make. *)
Definition expected_call (c : StoreCall) : Prop :=
  match c with
  | getIdeasByStatus s => s = submitted ∨ s = under_review
  | updateIdeaStatus _ s => s = under_review
  | submitAssessment _ r => complete_record r ∧ assessedBy r = "Assessment Team"
  end.

Definition is_query (c : StoreCall) : bool :=
  match c with getIdeasByStatus _ => true | _ => false end.

(** Refresh queries dispatched to the store and not settled yet. *)
Definition outstanding_queries (w : World) : nat :=
  length (filter (λ t, is_query (awaited t) = true) (tasks w)).

(** Submissions dispatched so far. *)
Definition submissions (w : World) : nat :=
  length (filter (λ c, is_submit c = true) (trace w)).

(** A store that answers every status query. *)
Definition answers_queries (o : Oracle) : Prop :=
  ∀ s, ∃ ideas, o (getIdeasByStatus s) = Fulfilled ideas.

(** The worlds the page can reach when every promise is settled by an oracle
    that satisfies [good]. *)
Inductive reachable_with (good : Oracle → Prop) : World → Prop :=
| reachable_with_mount : reachable_with good mount
| reachable_with_fire e w :
    reachable_with good w → enabled e w = true →
    (∀ i o, e = Settle i o → good o) →
    reachable_with good (fire e w).

(** Events that come from the reviewer, not from the store. *)
Definition from_reviewer (e : Event) : bool :=
  match e with Settle _ _ => false | _ => true end.

End AssessmentQueuePage.

Arguments AssessmentRecord : clear implicits.
Arguments State : clear implicits.
Arguments StoreCall : clear implicits.
Arguments Proc : clear implicits.
Arguments Task : clear implicits.
Arguments World : clear implicits.
Arguments Oracle : clear implicits.
Arguments Event : clear implicits.

(** ** A concrete session

    The ideas, the store and the worlds used to run the handlers on concrete
    inputs, with the levels of the specification's scenario. *)
Section Session.

#[local] Existing Instance Level_to_boolean.

Definition idea1 : Idea.t := Idea.mk "I1" submitted "Invoice triage".
Definition idea2 : Idea.t := Idea.mk "I2" under_review "Demand forecast".

(** A store that answers every query with the idea of that status and accepts
    every write. *)
Definition accepting : Oracle Level :=
  λ c, match c return Settled (Reply c) with
       | getIdeasByStatus submitted => Fulfilled [idea1]
       | getIdeasByStatus under_review => Fulfilled [idea2]
       | getIdeasByStatus _ => Fulfilled []
       | updateIdeaStatus _ _ => Fulfilled ()
       | submitAssessment _ _ => Fulfilled ()
       end.

(** The same store, failing on [submitAssessment]. *)
Definition rejecting : Oracle Level :=
  λ c, match c return Settled (Reply c) with
       | submitAssessment _ _ => Rejected
       | c => accepting c
       end.

Definition scenario_scores : list (string * Level) :=
  [ ("businessGrowth", High); ("costEfficiency", Medium);
    ("businessResilience", High); ("businessAgility", Medium);
    ("technicalFeasibility", High); ("internalReadiness", Medium);
    ("externalReadiness", High) ].

(** The queue is loaded. *)
Definition browsing : World Level :=
  fire_all [Settle 0 accepting; Settle 0 accepting] mount.

(** [idea2] is selected, every dimension is scored and one rationale is
    written. *)
Definition drafting : World Level :=
  fire_all (ClickIdea idea2
            :: map (λ c, ScoreChange c.1 c.2) scenario_scores
            ++ [RationaleChange "businessGrowth" "opens a new market"])
           browsing.

(** One dimension short of a complete draft. *)
Definition partly_scored : World Level :=
  fire_all (ClickIdea idea2 :: map (λ c, ScoreChange c.1 c.2) (tail scenario_scores))
           browsing.

(** The assessment of [idea2] is on its way to the store. *)
Definition in_flight : World Level := fire ClickSubmit drafting.

(** The store has accepted the assessment of [idea2]. *)
Definition assessed_idea2 : World Level := fire (Settle 0 accepting) in_flight.

(** A store that is down for queries. *)
Definition unavailable : Oracle Level :=
  λ c, match c return Settled (Reply c) with
       | getIdeasByStatus _ => Rejected
       | c => accepting c
       end.

End Session.

Section Properties.

Context {ScoreLevel : Type} `{!ToBoolean ScoreLevel}.

(** ** Completeness of the draft *)

Lemma scored_true (sc : gmap string ScoreLevel) dim :
  scored sc dim = true ↔ ∃ level, sc !! dim = Some level ∧ to_boolean level = true.
Proof.
  unfold scored. destruct (sc !! dim) as [level|]; split.
  - intros H. by exists level.
  - by intros (level' & [= <-] & H).
  - done.
  - by intros (level' & [=] & _).
Qed.

Lemma isComplete_true (st : State ScoreLevel) :
  isComplete st = true ↔ ∀ dim, dim ∈ requiredDimensions → scored (scores st) dim = true.
Proof.
  unfold isComplete. rewrite forallb_forall.
  split; intros H dim Hdim; apply H; by apply list_elem_of_In.
Qed.

Lemma unscored_incomplete (st : State ScoreLevel) dim :
  dim ∈ requiredDimensions → scores st !! dim = None → isComplete st = false.
Proof.
  intros Hdim Hnone. apply not_true_is_false. intros Hc.
  apply isComplete_true with (dim := dim) in Hc; [|done].
  apply scored_true in Hc as (level & Hsome & _). congruence.
Qed.

Lemma fire_all_app es1 es2 (w : World ScoreLevel) :
  fire_all (es1 ++ es2) w = fire_all es2 (fire_all es1 w).
Proof. apply foldl_app. Qed.

Lemma scores_after_score_changes (calls : list (string * ScoreLevel))
    (w : World ScoreLevel) dim :
  is_Some (scores (ui (fire_all (map (λ c, ScoreChange c.1 c.2) calls) w)) !! dim)
  ↔ is_Some (scores (ui w) !! dim) ∨ dim ∈ calls.*1.
Proof.
  revert w. induction calls as [|[d level] calls IH]; intros w; simpl.
  - rewrite elem_of_nil. tauto.
  - rewrite IH. simpl. rewrite elem_of_cons.
    destruct (decide (d = dim)) as [->|Hne].
    + rewrite lookup_insert_eq. split; [|intros _; left; by eexists]. auto.
    + rewrite lookup_insert_ne by done. intuition congruence.
Qed.

(** C4.  Provided every score level is a truthy value, [isComplete()] is
    true exactly when each of the seven dimensions businessGrowth,
    costEfficiency, businessResilience, businessAgility,
    technicalFeasibility, internalReadiness and externalReadiness has a
    score.  After any sequence of score changes, in any order and with any
    overwrites, this is the case exactly when each of the seven was scored
    before the sequence or is set by one of its calls.  The rationales play
    no part. *)
Theorem isComplete_iff_all_dimensions_scored
    (Htruthy : ∀ level : ScoreLevel, to_boolean level = true) :
  (∀ st, isComplete st = true
         ↔ ∀ dim, dim ∈ [ "businessGrowth"; "costEfficiency"; "businessResilience";
                          "businessAgility"; "technicalFeasibility";
                          "internalReadiness"; "externalReadiness" ] →
                  is_Some (scores st !! dim))
  ∧ (∀ (calls : list (string * ScoreLevel)) w,
       isComplete (ui (fire_all (map (λ c, ScoreChange c.1 c.2) calls) w)) = true
       ↔ ∀ dim, dim ∈ [ "businessGrowth"; "costEfficiency"; "businessResilience";
                        "businessAgility"; "technicalFeasibility";
                        "internalReadiness"; "externalReadiness" ] →
                is_Some (scores (ui w) !! dim) ∨ dim ∈ calls.*1)
  ∧ (∀ st r,
       isComplete {| pendingIdeas := pendingIdeas st; loading := loading st;
                     selectedIdea := selectedIdea st; submitting := submitting st;
                     scores := scores st; rationales := r |}
       = isComplete st).
Proof.
  assert (Hst : ∀ st, isComplete st = true
                ↔ ∀ dim, dim ∈ [ "businessGrowth"; "costEfficiency";
                                 "businessResilience"; "businessAgility";
                                 "technicalFeasibility"; "internalReadiness";
                                 "externalReadiness" ] →
                         is_Some (scores st !! dim)).
  { intros st. rewrite isComplete_true.
    split; intros H dim Hdim; specialize (H dim Hdim).
    - apply scored_true in H as (level & -> & _). by eexists.
    - destruct H as [level Hlevel]. apply scored_true. eauto. }
  split; [exact Hst|]. split; [|done].
  intros calls w. rewrite Hst.
  split; intros H dim Hdim; apply scores_after_score_changes; auto.
Qed.

(** ** Refused submissions *)

(** C2.  When no idea is selected, or a required dimension has no score, or
    [isComplete()] is false for any other reason, [handleSubmitAssessment]
    only shows the warning toast: no store call is dispatched, nothing is
    left suspended and the state is untouched. *)
Theorem submit_refused_without_store_call (st : State ScoreLevel) (w : World ScoreLevel)
    (Hrefused : selectedIdea st = None
                ∨ (∃ dim, dim ∈ requiredDimensions ∧ scores st !! dim = None)
                ∨ isComplete st = false) :
  run_sync (handleSubmitAssessment st) w
  = {| ui := ui w; tasks := tasks w; trace := trace w;
       toasts := toasts w
                 ++ [("Please score all dimensions before submitting", "warning")] |}.
Proof.
  assert (Hcase : selectedIdea st = None ∨ isComplete st = false).
  { destruct Hrefused as [H|[(dim & Hdim & Hnone)|H]]; eauto using unscored_incomplete. }
  unfold handleSubmitAssessment.
  destruct Hcase as [-> | ->]; [done|]. by destruct (selectedIdea st).
Qed.

(** ** Cancelling *)

(** C6, as the code has it.  The Cancel button clears the selection and
    nothing else: the scores, the rationales and the rest of the state stay
    as they were, no store call is dispatched and nothing is left
    suspended.  The draft left behind is emptied by the next selection. *)
Theorem cancel_clears_selection_only (w : World ScoreLevel) :
  let w' := run_sync handleCancel w in
  selectedIdea (ui w') = None
  ∧ scores (ui w') = scores (ui w)
  ∧ rationales (ui w') = rationales (ui w)
  ∧ pendingIdeas (ui w') = pendingIdeas (ui w)
  ∧ loading (ui w') = loading (ui w)
  ∧ submitting (ui w') = submitting (ui w)
  ∧ trace w' = trace w ∧ tasks w' = tasks w ∧ toasts w' = toasts w
  ∧ (∀ c : StoreCall ScoreLevel, ¬ emits handleCancel c)
  ∧ ∀ idea,
      scores (ui (run_sync (handleSelectIdea idea) w')) = ∅
      ∧ rationales (ui (run_sync (handleSelectIdea idea) w')) = ∅.
Proof.
  simpl. do 9 (split; [reflexivity|]). split; [intros c []|].
  intros idea. unfold handleSelectIdea. simpl.
  by destruct (decide (Idea.status idea = submitted)).
Qed.

(** ** Editing the draft *)

Lemma scored_insert_ne (sc : gmap string ScoreLevel) d level dim :
  d ≠ dim → scored (<[d := level]> sc) dim = scored sc dim.
Proof. intros Hne. unfold scored. by rewrite lookup_insert_ne. Qed.

Lemma outside_required d :
  d ∉ requiredDimensions →
  Forall (λ dim, d ≠ dim) requiredDimensions.
Proof.
  intros Hout. apply Forall_forall. intros dim Hdim ->. by apply Hout.
Qed.

(** C7, as the code has it.  Any dimension key, one of the seven or not, is
    accepted: the score, or the rationale, is stored under the key, nothing
    is thrown, no toast is shown and no store call is made.  A key that is
    none of businessGrowth, costEfficiency, businessResilience,
    businessAgility, technicalFeasibility, internalReadiness and
    externalReadiness has no influence on [isComplete()], and a score stored
    under it does not change the assessment record built from the draft. *)
Theorem foreign_dimension_is_stored dimension (score : ScoreLevel) rationale
    (w : World ScoreLevel) :
  let w1 := run_sync (handleScoreChange dimension score) w in
  let w2 := run_sync (handleRationaleChange dimension rationale) w in
  (scores (ui w1) = <[dimension := score]> (scores (ui w))
   ∧ rationales (ui w1) = rationales (ui w)
   ∧ selectedIdea (ui w1) = selectedIdea (ui w)
   ∧ toasts w1 = toasts w ∧ trace w1 = trace w ∧ tasks w1 = tasks w)
  ∧ (rationales (ui w2) = <[dimension := rationale]> (rationales (ui w))
     ∧ scores (ui w2) = scores (ui w)
     ∧ selectedIdea (ui w2) = selectedIdea (ui w)
     ∧ toasts w2 = toasts w ∧ trace w2 = trace w ∧ tasks w2 = tasks w)
  ∧ ¬ raises (handleScoreChange dimension score)
  ∧ ¬ raises (handleRationaleChange (ScoreLevel := ScoreLevel) dimension rationale)
  ∧ (dimension ∉ [ "businessGrowth"; "costEfficiency"; "businessResilience";
                   "businessAgility"; "technicalFeasibility";
                   "internalReadiness"; "externalReadiness" ] →
     isComplete (ui w1) = isComplete (ui w)
     ∧ isComplete (ui w2) = isComplete (ui w)
     ∧ assessmentOf (ui w1) = assessmentOf (ui w)).
Proof.
  simpl. split; [done|]. split; [done|]. split; [tauto|]. split; [tauto|].
  intros Houtside. apply outside_required in Houtside.
  unfold requiredDimensions in Houtside.
  repeat (apply Forall_cons in Houtside as [? Houtside]).
  split; [|split; [done|]].
  - unfold isComplete. simpl. by rewrite !scored_insert_ne.
  - unfold assessmentOf. simpl. by rewrite !lookup_insert_ne.
Qed.

(** ** Fetching the pending list *)

Lemma fetchPendingIdeas_run (w : World ScoreLevel) :
  ∃ k1,
    run_sync fetchPendingIdeas w
    = {| ui := {| pendingIdeas := pendingIdeas (ui w); loading := true;
                  selectedIdea := selectedIdea (ui w);
                  submitting := submitting (ui w);
                  scores := scores (ui w); rationales := rationales (ui w) |};
         tasks := tasks w ++ [ {| awaited := getIdeasByStatus submitted; cont := k1 |} ];
         trace := trace w ++ [getIdeasByStatus submitted];
         toasts := toasts w |}
    ∧ (∀ w1 : World ScoreLevel, run_sync (k1 Rejected) w1 = w1)
    ∧ ∀ sub (w1 : World ScoreLevel), ∃ k2,
        run_sync (k1 (Fulfilled sub)) w1
        = {| ui := ui w1;
             tasks := tasks w1
                      ++ [ {| awaited := getIdeasByStatus under_review; cont := k2 |} ];
             trace := trace w1 ++ [getIdeasByStatus under_review];
             toasts := toasts w1 |}
        ∧ (∀ w2 : World ScoreLevel, run_sync (k2 Rejected) w2 = w2)
        ∧ ∀ ur (w2 : World ScoreLevel),
            run_sync (k2 (Fulfilled ur)) w2
            = {| ui := {| pendingIdeas := sub ++ ur; loading := false;
                          selectedIdea := selectedIdea (ui w2);
                          submitting := submitting (ui w2);
                          scores := scores (ui w2);
                          rationales := rationales (ui w2) |};
                 tasks := tasks w2; trace := trace w2; toasts := toasts w2 |}.
Proof.
  eexists. split; [reflexivity|]. split; [done|].
  intros sub w1. eexists. split; [by destruct w1|]. split; [done|].
  intros ur w2. reflexivity.
Qed.

Lemma fetchPendingIdeas_emits (c : StoreCall ScoreLevel) :
  emits fetchPendingIdeas c → ∃ s, c = getIdeasByStatus s.
Proof.
  simpl. intros [<-|[[sub|] H]]; [by eexists| |done].
  simpl in H. destruct H as [<-|[[ur|] H]]; [by eexists|done..].
Qed.

(** C9.  [fetchPendingIdeas] dispatches the query for [submitted]; once it
    is answered, the query for [under_review]; and once that is answered it
    stores the first answer followed by the second as the pending list, and
    makes no other call.  With a store that answers a query by status with
    ideas of that status, every idea of the pending list is [submitted] or
    [under_review], hence neither [assessed] nor [rejected]. *)
Theorem pending_list_is_concatenation (sub ur : list Idea.t) (w : World ScoreLevel)
    (Hsub : ∀ idea, idea ∈ sub → Idea.status idea = submitted)
    (Hur : ∀ idea, idea ∈ ur → Idea.status idea = under_review) :
  ∃ k1,
    tasks (run_sync fetchPendingIdeas w)
    = tasks w ++ [ {| awaited := getIdeasByStatus submitted; cont := k1 |} ]
    ∧ trace (run_sync fetchPendingIdeas w) = trace w ++ [getIdeasByStatus submitted]
    ∧ ∀ w1, ∃ k2,
        tasks (run_sync (k1 (Fulfilled sub)) w1)
        = tasks w1 ++ [ {| awaited := getIdeasByStatus under_review; cont := k2 |} ]
        ∧ trace (run_sync (k1 (Fulfilled sub)) w1)
          = trace w1 ++ [getIdeasByStatus under_review]
        ∧ pendingIdeas (ui (run_sync (k1 (Fulfilled sub)) w1)) = pendingIdeas (ui w1)
        ∧ ∀ w2,
            let w3 := run_sync (k2 (Fulfilled ur)) w2 in
            pendingIdeas (ui w3) = sub ++ ur
            ∧ loading (ui w3) = false
            ∧ tasks w3 = tasks w2 ∧ trace w3 = trace w2
            ∧ ∀ idea, idea ∈ pendingIdeas (ui w3) →
                      (Idea.status idea = submitted ∨ Idea.status idea = under_review)
                      ∧ Idea.status idea ≠ assessed ∧ Idea.status idea ≠ rejected.
Proof.
  eexists. split; [reflexivity|]. split; [reflexivity|].
  intros w1. eexists. split; [reflexivity|]. split; [reflexivity|].
  split; [reflexivity|].
  intros w2. simpl. do 4 (split; [reflexivity|]).
  intros idea Hin.
  assert (Hstatus : Idea.status idea = submitted ∨ Idea.status idea = under_review).
  { apply elem_of_app in Hin as [Hin|Hin]; [left|right]; auto. }
  split; [exact Hstatus|].
  destruct Hstatus as [-> | ->]; split; discriminate.
Qed.

(** ** Selecting an idea *)

(** C5.  [handleSelectIdea] always selects the idea and empties the scores
    and the rationales.  For a [submitted] idea it dispatches one
    [updateIdeaStatus(id, 'under_review')]; once that call succeeds it
    refreshes the pending list, and nothing after the call writes to the
    store.  For any other status, [under_review] included, it makes no
    store call at all. *)
Theorem select_resets_draft_and_reviews_once idea (w : World ScoreLevel) :
  let w' := run_sync (handleSelectIdea idea) w in
  selectedIdea (ui w') = Some idea
  ∧ scores (ui w') = ∅
  ∧ rationales (ui w') = ∅
  ∧ pendingIdeas (ui w') = pendingIdeas (ui w)
  ∧ loading (ui w') = loading (ui w)
  ∧ submitting (ui w') = submitting (ui w)
  ∧ toasts w' = toasts w
  ∧ if decide (Idea.status idea = submitted) then
      ∃ k,
        tasks w'
        = tasks w ++ [ {| awaited := updateIdeaStatus (Idea.id idea) under_review;
                          cont := k |} ]
        ∧ trace w' = trace w ++ [updateIdeaStatus (Idea.id idea) under_review]
        ∧ (∀ w1, run_sync (k (Fulfilled ())) w1 = run_sync fetchPendingIdeas w1)
        ∧ (∀ w1, run_sync (k Rejected) w1 = w1)
        ∧ ∀ r c, emits (k r) c → written c = None
    else
      tasks w' = tasks w ∧ trace w' = trace w
      ∧ ∀ c : StoreCall ScoreLevel, ¬ emits (handleSelectIdea idea) c.
Proof.
  unfold handleSelectIdea. simpl.
  destruct (decide (Idea.status idea = submitted)) as [Hs|Hs]; simpl.
  - repeat split; try done. eexists. repeat split; try done.
    intros [[]|] c; simpl; [|done].
    intros [H|[]]. apply fetchPendingIdeas_emits in H as [s ->]. done.
  - repeat split; try done. intros c [].
Qed.

(** ** Submitting *)

Lemma settle_last (t : Task ScoreLevel) (o : Oracle ScoreLevel) ts st tr tt :
  settle (length ts) o {| ui := st; tasks := ts ++ [t]; trace := tr; toasts := tt |}
  = run_sync (cont t (o (awaited t)))
             {| ui := st; tasks := ts; trace := tr; toasts := tt |}.
Proof.
  unfold settle. simpl.
  rewrite list_lookup_middle by done.
  by rewrite delete_middle, app_nil_r.
Qed.

(** C1.  With an idea selected and a complete draft, [handleSubmitAssessment]
    dispatches one [submitAssessment] for the selected idea, whose record
    holds the draft's score for each of the seven dimensions, the draft's
    rationales and ['Assessment Team'] as [assessedBy].  When the store
    accepts it, the handler clears the selection, the scores and the
    rationales, starts a refresh of the pending list (the query for
    [submitted] is dispatched) and announces the success. *)
Theorem submit_sends_record_then_clears (st : State ScoreLevel) idea
    (w : World ScoreLevel)
    (Hselected : selectedIdea st = Some idea)
    (Hcomplete : isComplete st = true) :
  ∃ k l1 l2 l3 l4 l5 l6 l7,
    (scores st !! "businessGrowth" = Some l1
     ∧ scores st !! "costEfficiency" = Some l2
     ∧ scores st !! "businessResilience" = Some l3
     ∧ scores st !! "businessAgility" = Some l4
     ∧ scores st !! "technicalFeasibility" = Some l5
     ∧ scores st !! "internalReadiness" = Some l6
     ∧ scores st !! "externalReadiness" = Some l7)
    ∧ assessmentOf st
      = {| businessGrowth := Some l1; costEfficiency := Some l2;
           businessResilience := Some l3; businessAgility := Some l4;
           technicalFeasibility := Some l5; internalReadiness := Some l6;
           externalReadiness := Some l7;
           assessment_rationales := rationales st;
           assessedBy := "Assessment Team" |}
    ∧ run_sync (handleSubmitAssessment st) w
      = {| ui := {| pendingIdeas := pendingIdeas (ui w); loading := loading (ui w);
                    selectedIdea := selectedIdea (ui w); submitting := true;
                    scores := scores (ui w); rationales := rationales (ui w) |};
           tasks := tasks w
                    ++ [ {| awaited := submitAssessment (Idea.id idea) (assessmentOf st);
                            cont := k |} ];
           trace := trace w ++ [submitAssessment (Idea.id idea) (assessmentOf st)];
           toasts := toasts w |}
    ∧ ∀ w1,
        let w2 := run_sync (k (Fulfilled ())) w1 in
        selectedIdea (ui w2) = None
        ∧ scores (ui w2) = ∅
        ∧ rationales (ui w2) = ∅
        ∧ submitting (ui w2) = false
        ∧ trace w2 = trace w1 ++ [getIdeasByStatus submitted]
        ∧ tasks w2 = tasks (run_sync fetchPendingIdeas w1)
        ∧ toasts w2
          = toasts w1
            ++ [(dquote +:+ Idea.title idea +:+ dquote +:+ " has been assessed!",
                 "success")].
Proof.
  assert (Hlevel : ∀ dim, dim ∈ requiredDimensions → ∃ l, scores st !! dim = Some l).
  { intros dim Hdim. apply isComplete_true with (dim := dim) in Hcomplete; [|done].
    apply scored_true in Hcomplete as (l & Hl & _). eauto. }
  destruct (Hlevel "businessGrowth") as [l1 H1]; [apply list_elem_of_In; simpl; tauto|].
  destruct (Hlevel "costEfficiency") as [l2 H2]; [apply list_elem_of_In; simpl; tauto|].
  destruct (Hlevel "businessResilience") as [l3 H3]; [apply list_elem_of_In; simpl; tauto|].
  destruct (Hlevel "businessAgility") as [l4 H4]; [apply list_elem_of_In; simpl; tauto|].
  destruct (Hlevel "technicalFeasibility") as [l5 H5]; [apply list_elem_of_In; simpl; tauto|].
  destruct (Hlevel "internalReadiness") as [l6 H6]; [apply list_elem_of_In; simpl; tauto|].
  destruct (Hlevel "externalReadiness") as [l7 H7]; [apply list_elem_of_In; simpl; tauto|].
  eexists. exists l1, l2, l3, l4, l5, l6, l7.
  split; [done|]. split.
  { unfold assessmentOf. by rewrite H1, H2, H3, H4, H5, H6, H7. }
  unfold handleSubmitAssessment. rewrite Hselected, Hcomplete.
  split; [reflexivity|].
  intros w1. simpl. done.
Qed.

(** C3.  With an idea selected and a complete draft, if the store rejects
    the [submitAssessment] call then the handler shows the error toast and
    resets [submitting]; the scores, the rationales, the selection and the
    pending list are those of the moment the rejection arrives, no store
    call is dispatched and nothing is left suspended.  When the rejection
    comes right after the dispatch, the state is the one before the call. *)
Theorem failed_submit_keeps_draft (st : State ScoreLevel) idea (w : World ScoreLevel)
    (Hselected : selectedIdea st = Some idea)
    (Hcomplete : isComplete st = true) :
  ∃ k,
    tasks (run_sync (handleSubmitAssessment st) w)
    = tasks w ++ [ {| awaited := submitAssessment (Idea.id idea) (assessmentOf st);
                      cont := k |} ]
    ∧ (∀ w1,
         run_sync (k Rejected) w1
         = {| ui := {| pendingIdeas := pendingIdeas (ui w1); loading := loading (ui w1);
                       selectedIdea := selectedIdea (ui w1); submitting := false;
                       scores := scores (ui w1); rationales := rationales (ui w1) |};
              tasks := tasks w1; trace := trace w1;
              toasts := toasts w1 ++ [("Failed to submit assessment", "error")] |})
    ∧ ∀ o : Oracle ScoreLevel,
        o (submitAssessment (Idea.id idea) (assessmentOf st)) = Rejected →
        settle (length (tasks w)) o (run_sync (handleSubmitAssessment st) w)
        = {| ui := {| pendingIdeas := pendingIdeas (ui w); loading := loading (ui w);
                      selectedIdea := selectedIdea (ui w); submitting := false;
                      scores := scores (ui w); rationales := rationales (ui w) |};
             tasks := tasks w;
             trace := trace w ++ [submitAssessment (Idea.id idea) (assessmentOf st)];
             toasts := toasts w ++ [("Failed to submit assessment", "error")] |}.
Proof.
  unfold handleSubmitAssessment. rewrite Hselected, Hcomplete.
  eexists. split; [reflexivity|]. split; [done|].
  intros o Ho. simpl. rewrite settle_last. simpl. by rewrite Ho.
Qed.

(** ** Status transitions *)


(** Every call that running [p] adds to the trace is one that [p] emits, and
    so is every call of the functions it leaves suspended. *)
Lemma run_sync_emits (p : Proc ScoreLevel) w :
  ∃ new l,
    tasks (run_sync p w) = tasks w ++ new
    ∧ trace (run_sync p w) = trace w ++ l
    ∧ Forall (emits p) l
    ∧ Forall (λ t, emits p (awaited t) ∧ ∀ r c, emits (cont t r) c → emits p c) new.
Proof.
  revert w. induction p as [| |f k IH|m kd k IH|child IHc k IHk|c k IH]; intros w; simpl.
  - exists [], []. by rewrite !app_nil_r.
  - exists [], []. by rewrite !app_nil_r.
  - destruct (IH {| ui := f (ui w); tasks := tasks w; trace := trace w;
                    toasts := toasts w |}) as (new & l & H).
    by exists new, l.
  - destruct (IH {| ui := ui w; tasks := tasks w; trace := trace w;
                    toasts := toasts w ++ [(m, kd)] |}) as (new & l & H).
    by exists new, l.
  - destruct (IHc w) as (new1 & l1 & Ht1 & Htr1 & Hl1 & Hn1).
    destruct (IHk (run_sync child w)) as (new2 & l2 & Ht2 & Htr2 & Hl2 & Hn2).
    exists (new1 ++ new2), (l1 ++ l2).
    rewrite Ht2, Ht1, Htr2, Htr1, !app_assoc. repeat split; try done.
    + apply Forall_app. split; (eapply Forall_impl; [done|]); simpl; auto.
    + apply Forall_app. split.
      * eapply Forall_impl; [exact Hn1|]. intros t [Ha Hc].
        split; [by left|]. intros r c' He. left. eauto.
      * eapply Forall_impl; [exact Hn2|]. intros t [Ha Hc].
        split; [by right|]. intros r c' He. right. eauto.
  - exists [ {| awaited := c; cont := k |} ], [c]. repeat split; try done.
    + constructor; [|constructor]. simpl. by left.
    + constructor; [|constructor]. simpl.
      split; [by left|]. intros r c' He. right. eauto.
Qed.


(** ** One submission at a time *)

Lemma quiet_run (p : Proc ScoreLevel) :
  quiet p → ∀ w, ∃ new l,
    submitting (ui (run_sync p w)) = submitting (ui w)
    ∧ tasks (run_sync p w) = tasks w ++ new
    ∧ Forall quiet_task new
    ∧ trace (run_sync p w) = trace w ++ l
    ∧ Forall (λ c, is_submit c = false) l.
Proof.
  induction p as [| |f k IH|m kd k IH|child IHc k IHk|c k IH]; simpl.
  - intros _ w. exists [], []. by rewrite !app_nil_r.
  - intros _ w. exists [], []. by rewrite !app_nil_r.
  - intros [Hf Hk] w. destruct (IH Hk {| ui := f (ui w); tasks := tasks w;
      trace := trace w; toasts := toasts w |}) as (new & l & Hs & Ht & Hq & Htr & Hl).
    exists new, l. simpl in *. by rewrite Hs, Hf.
  - intros Hk w. destruct (IH Hk {| ui := ui w; tasks := tasks w;
      trace := trace w; toasts := toasts w ++ [(m, kd)] |})
      as (new & l & Hs & Ht & Hq & Htr & Hl).
    exists new, l. done.
  - intros [Hc Hk] w.
    destruct (IHc Hc w) as (new1 & l1 & Hs1 & Ht1 & Hq1 & Htr1 & Hl1).
    destruct (IHk Hk (run_sync child w)) as (new2 & l2 & Hs2 & Ht2 & Hq2 & Htr2 & Hl2).
    exists (new1 ++ new2), (l1 ++ l2).
    rewrite Hs2, Hs1, Ht2, Ht1, Htr2, Htr1, !app_assoc.
    repeat split; try done; by apply Forall_app.
  - intros [Hc Hk] w. exists [ {| awaited := c; cont := k |} ], [c].
    repeat split; try done; by repeat constructor.
Qed.

Lemma quiet_fetchPendingIdeas : quiet (fetchPendingIdeas (ScoreLevel := ScoreLevel)).
Proof.
  simpl. repeat split. intros [sub|]; simpl; [|done].
  repeat split. by intros [ur|].
Qed.

Lemma quiet_handleSelectIdea idea :
  quiet (handleSelectIdea (ScoreLevel := ScoreLevel) idea).
Proof.
  unfold handleSelectIdea. simpl. repeat split.
  destruct (decide (Idea.status idea = submitted)); simpl; [|done].
  split; [done|]. intros [[]|]; simpl; [|done].
  split; [apply quiet_fetchPendingIdeas|done].
Qed.

Lemma outstanding_quiet (new : list (Task ScoreLevel)) :
  Forall quiet_task new →
  length (filter (λ t, is_submit (awaited t) = true) new) = 0.
Proof.
  induction 1 as [|t new [Ht _] _ IH]; [done|].
  rewrite filter_cons_False; [done|]. by rewrite Ht.
Qed.

Lemma quiet_task_ok (t : Task ScoreLevel) : quiet_task t → task_ok t.
Proof. intros [Hc Hk]. unfold task_ok. by rewrite Hc. Qed.

Lemma outstanding_delete (ts : list (Task ScoreLevel)) i t :
  ts !! i = Some t →
  length (filter (λ t, is_submit (awaited t) = true) ts)
  = (if is_submit (awaited t) then 1 else 0)
    + length (filter (λ t, is_submit (awaited t) = true) (delete i ts)).
Proof.
  intros Hi. rewrite <- (take_drop_middle ts i t Hi) at 1.
  rewrite delete_take_drop, !filter_app, !length_app, filter_cons.
  destruct (is_submit (awaited t)); case_decide; simpl; try done; lia.
Qed.

Lemma quiet_step p (w : World ScoreLevel) :
  quiet p → invariant w →
  invariant (run_sync p w)
  ∧ ∃ l, trace (run_sync p w) = trace w ++ l ∧ Forall (λ c, is_submit c = false) l.
Proof.
  intros Hq [Hok Hcount].
  destruct (quiet_run p Hq w) as (new & l & Hs & Ht & Hn & Htr & Hl).
  split; [|eauto]. split.
  - rewrite Ht. apply Forall_app. split; [done|].
    eapply Forall_impl; [done|apply quiet_task_ok].
  - unfold outstanding_submits in *.
    rewrite Ht, filter_app, length_app, (outstanding_quiet new Hn), Hs. lia.
Qed.

Lemma submit_task_releases (st : State ScoreLevel) idea (w : World ScoreLevel) :
  selectedIdea st = Some idea → isComplete st = true →
  ∃ k,
    run_sync (handleSubmitAssessment st) w
    = {| ui := {| pendingIdeas := pendingIdeas (ui w); loading := loading (ui w);
                  selectedIdea := selectedIdea (ui w); submitting := true;
                  scores := scores (ui w); rationales := rationales (ui w) |};
         tasks := tasks w
                  ++ [ {| awaited := submitAssessment (Idea.id idea) (assessmentOf st);
                          cont := k |} ];
         trace := trace w ++ [submitAssessment (Idea.id idea) (assessmentOf st)];
         toasts := toasts w |}
    ∧ ∀ r, releases (k r).
Proof.
  intros Hsel Hcomplete. unfold handleSubmitAssessment. rewrite Hsel, Hcomplete.
  eexists. split; [reflexivity|].
  intros [[]|] w1; simpl.
  - eexists [_], [_]. repeat split; try done; [|by repeat constructor].
    repeat constructor; simpl. intros [sub|]; simpl; [|done].
    repeat split. by intros [ur|].
  - exists [], []. by rewrite !app_nil_r.
Qed.

Lemma invariant_mount : invariant (mount (ScoreLevel := ScoreLevel)).
Proof.
  apply (quiet_step fetchPendingIdeas); [apply quiet_fetchPendingIdeas|].
  split; [by constructor|done].
Qed.

Lemma invariant_fire e (w : World ScoreLevel) :
  invariant w → enabled e w = true →
  invariant (fire e w)
  ∧ (enabled ClickSubmit w = false →
     ∃ l, trace (fire e w) = trace w ++ l ∧ Forall (λ c, is_submit c = false) l).
Proof.
  intros Hinv Hen. destruct e as [idea|d level|d r| | |i o]; simpl.
  - destruct (quiet_step _ w (quiet_handleSelectIdea idea) Hinv); auto.
  - destruct (quiet_step (handleScoreChange d level) w); auto. by simpl.
  - destruct (quiet_step (handleRationaleChange d r) w); auto. by simpl.
  - destruct (quiet_step handleCancel w); auto. by simpl.
  - split; [|intros Hoff; simpl in Hen; congruence].
    simpl in Hen. apply andb_true_iff in Hen as [Hen Hfree].
    apply andb_true_iff in Hen as [_ Hsel]. apply bool_decide_eq_true in Hsel as [idea Hsel].
    apply negb_true_iff, orb_false_iff in Hfree as [Hcomplete Hfree].
    apply negb_false_iff in Hcomplete.
    destruct Hinv as [Hok Hcount]. rewrite Hfree in Hcount.
    destruct (submit_task_releases (ui w) idea w Hsel Hcomplete) as (k & -> & Hrel).
    split; simpl.
    + apply Forall_app. split; [done|]. by constructor.
    + unfold outstanding_submits in *. simpl.
      rewrite filter_app, length_app, Hcount. done.
  - simpl in Hen. apply bool_decide_eq_true in Hen.
    destruct (lookup_lt_is_Some_2 _ _ Hen) as [t Ht].
    unfold settle. rewrite Ht. destruct Hinv as [Hok Hcount].
    pose proof (Forall_lookup_1 _ _ _ _ Hok Ht) as Htask.
    pose proof (outstanding_delete _ _ _ Ht) as Hdel.
    unfold outstanding_submits in Hcount. rewrite Hcount in Hdel.
    set (wd := {| ui := ui w; tasks := delete i (tasks w);
                  trace := trace w; toasts := toasts w |}).
    unfold task_ok in Htask. destruct (is_submit (awaited t)) eqn:Hkind.
    + destruct (Htask (o (awaited t)) wd) as (new & l & Hs & Hts & Hn & Htr & Hl).
      split; [|eauto]. split.
      * rewrite Hts. apply Forall_app. split; [by apply Forall_delete|].
        eapply Forall_impl; [done|apply quiet_task_ok].
      * unfold outstanding_submits.
        rewrite Hts, filter_app, length_app, (outstanding_quiet new Hn), Hs.
        simpl. destruct (submitting (ui w)); lia.
    + assert (Hinvd : invariant wd).
      { split; [by apply Forall_delete|]. unfold outstanding_submits. simpl. lia. }
      destruct (quiet_step _ wd (Htask (o (awaited t))) Hinvd); auto.
Qed.

Lemma reachable_invariant (w : World ScoreLevel) : reachable w → invariant w.
Proof.
  induction 1 as [|e w _ IH Hen]; [apply invariant_mount|].
  by apply invariant_fire.
Qed.

(** C10.  In every world the page can reach, while a [submitAssessment]
    call is outstanding it is the only one, the Submit button is disabled,
    and no event the page accepts dispatches another [submitAssessment]:
    the calls added to the trace by the event are all of another kind. *)
Theorem no_second_submit_while_outstanding (w : World ScoreLevel) e
    (Hreach : reachable w)
    (Houtstanding : 0 < outstanding_submits w)
    (Henabled : enabled e w = true) :
  outstanding_submits w = 1
  ∧ submitting (ui w) = true
  ∧ enabled ClickSubmit w = false
  ∧ ∃ l, trace (fire e w) = trace w ++ l ∧ Forall (λ c, is_submit c = false) l.
Proof.
  pose proof (reachable_invariant w Hreach) as Hinv.
  assert (Hflag : submitting (ui w) = true).
  { destruct Hinv as [_ Hcount]. destruct (submitting (ui w)); [done|lia]. }
  assert (Hoff : enabled ClickSubmit w = false).
  { simpl. rewrite Hflag, orb_true_r. simpl. by rewrite andb_false_r. }
  split; [|split; [done|split; [done|]]].
  - destruct Hinv as [_ Hcount]. by rewrite Hflag in Hcount.
  - by apply (invariant_fire e w Hinv Henabled).
Qed.

Lemma reachable_fire_all es (w : World ScoreLevel) :
  reachable w → enabled_all es w = true → reachable (fire_all es w).
Proof.
  revert w. induction es as [|e es IH]; intros w Hw Hen; [done|].
  simpl in *. apply andb_true_iff in Hen as [He Hes].
  apply IH; [by constructor|done].
Qed.

End Properties.

(** * The page as a transition system *)

Section Reachability.

Context {ScoreLevel : Type} `{!ToBoolean ScoreLevel}.

(** ** The handlers and their continuations *)

Lemma run_fetchPendingIdeas (w : World ScoreLevel) :
  run_sync fetchPendingIdeas w
  = {| ui := with_loading true (ui w); tasks := tasks w ++ [fetch1_task];
       trace := trace w ++ [getIdeasByStatus submitted]; toasts := toasts w |}.
Proof. reflexivity. Qed.

Lemma run_handleSelectIdea idea (w : World ScoreLevel) :
  run_sync (handleSelectIdea idea) w
  = {| ui := selecting (Some idea) (ui w);
       tasks := tasks w
                ++ (if decide (Idea.status idea = submitted)
                    then [update_task idea] else []);
       trace := trace w
                ++ (if decide (Idea.status idea = submitted)
                    then [updateIdeaStatus (Idea.id idea) under_review] else []);
       toasts := toasts w |}.
Proof.
  unfold handleSelectIdea. simpl.
  destruct (decide (Idea.status idea = submitted)); simpl; [done|].
  by rewrite !app_nil_r.
Qed.

Lemma run_handleSubmitAssessment (st : State ScoreLevel) idea (w : World ScoreLevel) :
  selectedIdea st = Some idea → isComplete st = true →
  run_sync (handleSubmitAssessment st) w
  = {| ui := with_submitting true (ui w);
       tasks := tasks w ++ [submit_task idea (assessmentOf st)];
       trace := trace w ++ [submitAssessment (Idea.id idea) (assessmentOf st)];
       toasts := toasts w |}.
Proof.
  intros Hsel Hcomplete. unfold handleSubmitAssessment. by rewrite Hsel, Hcomplete.
Qed.

Lemma enabled_from_reviewer e (w : World ScoreLevel) :
  from_reviewer e = true → enabled e w = true →
  loading (ui w) = false
  ∧ match e with
    | ClickIdea idea => idea ∈ pendingIdeas (ui w)
    | ClickSubmit =>
        is_Some (selectedIdea (ui w)) ∧ isComplete (ui w) = true
        ∧ submitting (ui w) = false
    | _ => is_Some (selectedIdea (ui w))
    end.
Proof.
  destruct e as [idea|d level|d text| | |i o]; simpl; intros Hrev Hen; try done.
  - apply andb_true_iff in Hen as [Hl Hin]. apply negb_true_iff in Hl.
    by apply bool_decide_eq_true in Hin.
  - apply andb_true_iff in Hen as [Hl Hsel]. apply negb_true_iff in Hl.
    by apply bool_decide_eq_true in Hsel.
  - apply andb_true_iff in Hen as [Hl Hsel]. apply negb_true_iff in Hl.
    by apply bool_decide_eq_true in Hsel.
  - apply andb_true_iff in Hen as [Hl Hsel]. apply negb_true_iff in Hl.
    by apply bool_decide_eq_true in Hsel.
  - apply andb_true_iff in Hen as [Hen Hfree].
    apply andb_true_iff in Hen as [Hl Hsel]. apply negb_true_iff in Hl.
    apply bool_decide_eq_true in Hsel.
    apply negb_true_iff, orb_false_iff in Hfree as [Hcomplete Hfree].
    by apply negb_false_iff in Hcomplete.
Qed.

(** Every accepted event is one of the moves, provided the suspended
    functions are those the handlers leave behind. *)
Lemma fire_transition e (w : World ScoreLevel) :
  Forall suspended (tasks w) → enabled e w = true → transition e w (fire e w).
Proof.
  intros Hsusp Hen.
  destruct (from_reviewer e) eqn:Hrev.
  - destruct (enabled_from_reviewer e w Hrev Hen) as [Hl He].
    destruct e as [idea|d level|d text| | |i o]; unfold fire; try done.
    + rewrite run_handleSelectIdea. by constructor.
    + by constructor.
    + by constructor.
    + by constructor.
    + destruct He as ([idea Hsel] & Hcomplete & Hfree).
      rewrite (run_handleSubmitAssessment _ idea) by done. by constructor.
  - destruct e as [| | | | |i o]; try done. simpl in *.
    apply bool_decide_eq_true in Hen.
    destruct (lookup_lt_is_Some_2 _ _ Hen) as [t Ht].
    pose proof (Forall_lookup_1 _ _ _ _ Hsusp Ht) as Hkind.
    unfold settle. rewrite Ht.
    destruct Hkind as [|sub|idea|idea r]; simpl.
    + destruct (o (getIdeasByStatus submitted)) as [sub|] eqn:Ho; simpl.
      * by apply move_submitted_answered.
      * by apply move_submitted_failed.
    + destruct (o (getIdeasByStatus under_review)) as [ur|] eqn:Ho; simpl.
      * by apply move_under_review_answered.
      * by apply (move_under_review_failed _ _ sub).
    + destruct (o (updateIdeaStatus (Idea.id idea) under_review)) as [[]|] eqn:Ho; simpl.
      * by apply (move_update_answered _ _ idea).
      * by apply (move_update_failed _ _ idea).
    + destruct (o (submitAssessment (Idea.id idea) r)) as [[]|] eqn:Ho; simpl.
      * by apply (move_submit_answered _ _ idea r).
      * by apply (move_submit_failed _ _ idea r).
Qed.

Lemma transition_suspended e (w w' : World ScoreLevel) :
  transition e w w' → Forall suspended (tasks w) → Forall suspended (tasks w').
Proof.
  intros Hmove Hsusp.
  destruct Hmove; simpl; try done;
    repeat (apply Forall_app; split); try (by apply Forall_delete);
    try (by repeat constructor).
  destruct (decide (Idea.status idea = submitted)); by repeat constructor.
Qed.

Lemma mount_suspended : Forall suspended (tasks (mount (ScoreLevel := ScoreLevel))).
Proof. by repeat constructor. Qed.

Lemma reachable_suspended (w : World ScoreLevel) :
  reachable w → Forall suspended (tasks w).
Proof.
  induction 1 as [|e w _ IH Hen]; [apply mount_suspended|].
  eapply transition_suspended; [by apply fire_transition|done].
Qed.

(** Induction over the moves of the page. *)
Lemma reachable_moves_ind (P : World ScoreLevel → Prop) :
  P mount →
  (∀ e w w', reachable w → P w → transition e w w' → P w') →
  ∀ w, reachable w → P w.
Proof.
  intros Hmount Hmove w Hreach.
  induction Hreach as [|e w Hreach IH Hen]; [done|].
  eapply Hmove; [done..|].
  apply fire_transition; [by apply reachable_suspended|done].
Qed.

(** ** Counting suspended functions and calls *)

Lemma filter_delete_length {A} (P : A → Prop) `{!∀ x, Decision (P x)}
    (l : list A) i x :
  l !! i = Some x →
  length (filter P l)
  = (if decide (P x) then 1 else 0) + length (filter P (delete i l)).
Proof.
  intros Hi. rewrite <- (take_drop_middle l i x Hi) at 1.
  rewrite delete_take_drop, !filter_app, !length_app, filter_cons.
  case_decide; simpl; lia.
Qed.

Lemma complete_assessmentOf (st : State ScoreLevel) :
  isComplete st = true → complete_record (assessmentOf st).
Proof.
  intros Hcomplete field Hin. unfold assessmentOf in Hin. simpl in Hin.
  assert (Hdim : ∀ dim, dim ∈ requiredDimensions →
                        ∃ level, scores st !! dim = Some level
                                 ∧ to_boolean level = true).
  { intros dim Hdim. apply scored_true. by apply isComplete_true. }
  repeat (apply elem_of_cons in Hin as [->|Hin];
          [apply Hdim, list_elem_of_In; simpl; tauto|]).
  by apply elem_of_nil in Hin.
Qed.

(** X1.  Every call the page has dispatched is one the component is written
    to make: a query for [submitted] or for [under_review], an
    [updateIdeaStatus] to [under_review], or a [submitAssessment] whose record
    has a truthy score for each of the seven dimensions and ['Assessment
    Team'] as [assessedBy].  No partial record ever reaches the store. *)
Theorem only_expected_calls (w : World ScoreLevel) :
  reachable w → Forall expected_call (trace w).
Proof.
  revert w. apply reachable_moves_ind.
  - repeat constructor.
  - intros e w w' _ IH Hmove.
    destruct Hmove; simpl; try done;
      try (apply Forall_app; split; [done|]; repeat constructor; simpl; by auto).
    + apply Forall_app. split; [done|].
      destruct (decide (Idea.status idea = submitted)); by repeat constructor.
    + apply Forall_app. split; [done|]. repeat constructor.
      by apply complete_assessmentOf.
Qed.

(** X2.  Through the controls of the page the warning of
    [handleSubmitAssessment] is never shown: every toast reports the success
    or the failure of a submission. *)
Theorem toasts_report_submissions (w : World ScoreLevel) :
  reachable w →
  Forall (λ toast, toast.2 = "success" ∨ toast.2 = "error") (toasts w).
Proof.
  revert w. apply reachable_moves_ind.
  - constructor.
  - intros e w w' _ IH Hmove.
    destruct Hmove; simpl; try done;
      apply Forall_app; split; try done; apply Forall_singleton; simpl; auto.
Qed.

(** X3.  Each submission is answered by exactly one toast: the submissions
    dispatched so far are those still outstanding plus one per toast
    shown. *)
Theorem one_toast_per_settled_submission (w : World ScoreLevel) :
  reachable w → submissions w = outstanding_submits w + length (toasts w).
Proof.
  revert w. apply reachable_moves_ind; [done|].
  intros e w w' _ IH Hmove. unfold submissions, outstanding_submits in *.
  destruct Hmove as [idea w ? ?| | | | |i o sub w Ht ?|i o w Ht ?|i o sub ur w Ht ?
                    |i o sub w Ht ?|i o idea w Ht ?|i o idea w Ht ?
                    |i o idea r w Ht ?|i o idea r w Ht ?];
    simpl; rewrite ?filter_app, ?length_app; simpl; try done;
    try (rewrite (filter_delete_length _ _ _ _ Ht) in IH; simpl in IH;
         repeat case_decide; try done; simpl; lia).
  - destruct (decide (Idea.status idea = submitted)); simpl;
      rewrite ?filter_app, ?length_app; simpl; repeat case_decide; try done; lia.
  - repeat case_decide; try done; simpl; lia.
Qed.

(** X4.  [submitting] is true exactly while one [submitAssessment] is
    outstanding and false exactly when none is; settling the outstanding
    submission, whatever the answer, resets it.  The Submit button is never
    left disabled by [submitting] with nothing in flight. *)
Theorem submitting_tracks_outstanding_submission (w : World ScoreLevel) :
  reachable w →
  (submitting (ui w) = true ↔ outstanding_submits w = 1)
  ∧ (submitting (ui w) = false ↔ outstanding_submits w = 0)
  ∧ ∀ i o t, tasks w !! i = Some t → is_submit (awaited t) = true →
             submitting (ui (settle i o w)) = false.
Proof.
  intros Hreach.
  destruct (reachable_invariant w Hreach) as [_ Hcount].
  split; [|split].
  - destruct (submitting (ui w)); rewrite Hcount; split; done.
  - destruct (submitting (ui w)); rewrite Hcount; split; done.
  - intros i o t Ht Hkind.
    pose proof (Forall_lookup_1 _ _ _ _ (reachable_suspended w Hreach) Ht) as Hsusp.
    unfold settle. rewrite Ht.
    destruct Hsusp as [|sub|idea|idea r]; try done. simpl.
    by destruct (o (submitAssessment (Idea.id idea) r)) as [[]|].
Qed.

(** X5.  A failed first load leaves the page on its spinner for good: when
    either query of the load is rejected, [loading] stays true, the queue
    stays empty, nothing is suspended, no toast is shown and no event is
    accepted any more. *)
Theorem failed_load_leaves_spinner (o : Oracle ScoreLevel)
    (Hfails : o (getIdeasByStatus submitted) = Rejected
              ∨ o (getIdeasByStatus under_review) = Rejected) :
  let w := settle 0 o (settle 0 o mount) in
  loading (ui w) = true
  ∧ pendingIdeas (ui w) = []
  ∧ tasks w = []
  ∧ toasts w = []
  ∧ ∀ e, enabled e w = false.
Proof.
  assert (Hstuck : ∀ w : World ScoreLevel,
             loading (ui w) = true → tasks w = [] → ∀ e, enabled e w = false).
  { intros w Hl Ht [idea|d level|d text| | |i o']; simpl; rewrite ?Hl, ?Ht; done. }
  assert (Hfirst : settle 0 o mount
                   = run_sync (after_submitted (o (getIdeasByStatus submitted)))
                       {| ui := with_loading true initial; tasks := [];
                          trace := [getIdeasByStatus submitted]; toasts := [] |})
    by reflexivity.
  cbv zeta. rewrite Hfirst.
  destruct (o (getIdeasByStatus submitted)) as [sub|] eqn:Hsub; simpl.
  - destruct Hfails as [?|Hur]; [done|].
    unfold settle. simpl. rewrite Hur. simpl.
    repeat split; try done. by apply Hstuck.
  - unfold settle. simpl. repeat split; try done. by apply Hstuck.
Qed.

Lemma reachable_with_reachable good (w : World ScoreLevel) :
  reachable_with good w → reachable w.
Proof. induction 1; by constructor. Qed.

(** X6.  With a store that answers every status query, the spinner always
    has a refresh behind it: whenever [loading] is true a query is
    outstanding. *)
Theorem spinner_has_refresh_in_flight (w : World ScoreLevel) :
  reachable_with answers_queries w →
  loading (ui w) = true → 0 < outstanding_queries w.
Proof.
  induction 1 as [|e w Hreach IH Hen Hgood]; [intros _; vm_compute; lia|].
  pose proof (fire_transition e w
                (reachable_suspended w (reachable_with_reachable _ w Hreach)) Hen)
    as Hmove.
  unfold outstanding_queries in *.
  destruct Hmove as [idea w Hl ?|d level w Hl ?|d text w Hl ?|w Hl ?|idea w Hl ? ? ?
                    |i o sub w Ht Ho|i o w Ht Ho|i o sub ur w Ht Ho
                    |i o sub w Ht Ho|i o idea w Ht Ho|i o idea w Ht Ho
                    |i o idea r w Ht Ho|i o idea r w Ht Ho];
    simpl; try congruence;
    rewrite ?filter_app, ?length_app; simpl;
    try (intros _; repeat case_decide; try done; simpl; lia).
  - destruct (Hgood i o eq_refl submitted) as [ideas Hideas]. congruence.
  - destruct (Hgood i o eq_refl under_review) as [ideas Hideas]. congruence.
  - intros Hl. specialize (IH Hl).
    rewrite (filter_delete_length _ _ _ _ Ht) in IH. simpl in IH.
    repeat case_decide; try done; simpl in IH; lia.
  - intros Hl. specialize (IH Hl).
    rewrite (filter_delete_length _ _ _ _ Ht) in IH. simpl in IH.
    repeat case_decide; try done; simpl in IH; lia.
Qed.

(** X12.  Only the end of a refresh changes the queue: it stores the two
    answers, clears [loading] and leaves the selection, the draft and
    [submitting] alone.  Every other accepted event leaves the queue as it
    is. *)
Theorem queue_changes_only_when_refresh_completes e (w : World ScoreLevel) :
  reachable w → enabled e w = true →
  pendingIdeas (ui (fire e w)) = pendingIdeas (ui w)
  ∨ ∃ i o sub ur,
      e = Settle i o
      ∧ tasks w !! i = Some (fetch2_task sub)
      ∧ o (getIdeasByStatus under_review) = Fulfilled ur
      ∧ pendingIdeas (ui (fire e w)) = sub ++ ur
      ∧ loading (ui (fire e w)) = false
      ∧ selectedIdea (ui (fire e w)) = selectedIdea (ui w)
      ∧ scores (ui (fire e w)) = scores (ui w)
      ∧ rationales (ui (fire e w)) = rationales (ui w)
      ∧ submitting (ui (fire e w)) = submitting (ui w).
Proof.
  intros Hreach Hen.
  destruct (fire_transition e w (reachable_suspended w Hreach) Hen);
    simpl; auto.
  right. by exists i, o, sub, ur.
Qed.

(** ** Sequences of edits and selections *)

Lemma edits_lookup {V} (calls : list (string * V)) (m : gmap string V) dim :
  foldl (λ m c, <[c.1 := c.2]> m) m calls !! dim
  = match last (filter (λ c, c.1 = dim) calls) with
    | Some c => Some c.2
    | None => m !! dim
    end.
Proof.
  induction calls as [|[d v] calls IH] using rev_ind; [done|].
  rewrite foldl_app, filter_app. simpl.
  destruct (decide (d = dim)) as [->|Hne].
  - rewrite lookup_insert_eq, filter_cons_True, filter_nil, last_snoc by done. done.
  - rewrite lookup_insert_ne, filter_cons_False, filter_nil, app_nil_r by done.
    exact IH.
Qed.

Lemma fire_all_cons e es (w : World ScoreLevel) :
  fire_all (e :: es) w = fire_all es (fire e w).
Proof. reflexivity. Qed.

Lemma score_changes_run (calls : list (string * ScoreLevel)) (w : World ScoreLevel) :
  fire_all (map (λ c, ScoreChange c.1 c.2) calls) w
  = {| ui := with_scores (foldl (λ m c, <[c.1 := c.2]> m) (scores (ui w)) calls) (ui w);
       tasks := tasks w; trace := trace w; toasts := toasts w |}.
Proof.
  revert w. induction calls as [|[d v] calls IH]; intros w.
  - by destruct w as [[] ? ? ?].
  - rewrite map_cons, fire_all_cons, IH. reflexivity.
Qed.

Lemma rationale_changes_run (calls : list (string * string)) (w : World ScoreLevel) :
  fire_all (map (λ c, RationaleChange c.1 c.2) calls) w
  = {| ui := with_rationales
               (foldl (λ m c, <[c.1 := c.2]> m) (rationales (ui w)) calls) (ui w);
       tasks := tasks w; trace := trace w; toasts := toasts w |}.
Proof.
  revert w. induction calls as [|[d v] calls IH]; intros w.
  - by destruct w as [[] ? ? ?].
  - rewrite map_cons, fire_all_cons, IH. reflexivity.
Qed.

(** X7.  Score changes compose as overwrites: after any sequence of them a
    dimension holds the level of the last change made to it, or what it
    held before when none was made; the rationales, the selection and the
    rest of the page are untouched and nothing is sent to the store. *)
Theorem score_changes_last_write_wins
    (calls : list (string * ScoreLevel)) (w : World ScoreLevel) :
  let w' := fire_all (map (λ c, ScoreChange c.1 c.2) calls) w in
  (∀ dim, scores (ui w') !! dim
          = match last (filter (λ c, c.1 = dim) calls) with
            | Some c => Some c.2
            | None => scores (ui w) !! dim
            end)
  ∧ rationales (ui w') = rationales (ui w)
  ∧ selectedIdea (ui w') = selectedIdea (ui w)
  ∧ pendingIdeas (ui w') = pendingIdeas (ui w)
  ∧ loading (ui w') = loading (ui w)
  ∧ submitting (ui w') = submitting (ui w)
  ∧ tasks w' = tasks w ∧ trace w' = trace w ∧ toasts w' = toasts w.
Proof.
  cbv zeta. rewrite score_changes_run. simpl.
  split; [|done]. intros dim. apply edits_lookup.
Qed.

(** X8.  Rationale changes compose in the same way: the last text written
    for a dimension stays, the scores and the rest of the page are
    untouched and nothing is sent to the store. *)
Theorem rationale_changes_last_write_wins
    (calls : list (string * string)) (w : World ScoreLevel) :
  let w' := fire_all (map (λ c, RationaleChange c.1 c.2) calls) w in
  (∀ dim, rationales (ui w') !! dim
          = match last (filter (λ c, c.1 = dim) calls) with
            | Some c => Some c.2
            | None => rationales (ui w) !! dim
            end)
  ∧ scores (ui w') = scores (ui w)
  ∧ selectedIdea (ui w') = selectedIdea (ui w)
  ∧ pendingIdeas (ui w') = pendingIdeas (ui w)
  ∧ loading (ui w') = loading (ui w)
  ∧ submitting (ui w') = submitting (ui w)
  ∧ tasks w' = tasks w ∧ trace w' = trace w ∧ toasts w' = toasts w.
Proof.
  cbv zeta. rewrite rationale_changes_run. simpl.
  split; [|done]. intros dim. apply edits_lookup.
Qed.

(** X9.  Selecting cards one after the other, before any answer of the
    store arrives, dispatches one [updateIdeaStatus] for each selected idea
    object whose status is [submitted], in the order of the clicks and with
    repetitions: nothing is deduplicated.  The last card clicked is the
    selection and the draft is empty. *)
Theorem selections_dispatch_one_update_each (ideas : list Idea.t) (w : World ScoreLevel) :
  let w' := fire_all (map ClickIdea ideas) w in
  trace w'
  = trace w
    ++ map (λ idea, updateIdeaStatus (Idea.id idea) under_review)
           (filter (λ idea, Idea.status idea = submitted) ideas)
  ∧ tasks w'
    = tasks w ++ map update_task (filter (λ idea, Idea.status idea = submitted) ideas)
  ∧ selectedIdea (ui w')
    = match last ideas with Some idea => Some idea | None => selectedIdea (ui w) end
  ∧ scores (ui w') = match ideas with [] => scores (ui w) | _ => ∅ end
  ∧ rationales (ui w') = match ideas with [] => rationales (ui w) | _ => ∅ end
  ∧ toasts w' = toasts w.
Proof.
  cbv zeta. revert w. induction ideas as [|idea ideas IH]; intros w.
  - simpl. by rewrite !app_nil_r.
  - rewrite map_cons, fire_all_cons.
    change (fire (ClickIdea idea) w) with (run_sync (handleSelectIdea idea) w).
    rewrite run_handleSelectIdea.
    match goal with |- context [fire_all _ ?w0] => set (w1 := w0) end.
    destruct (IH w1) as (Htr & Hts & Hsel & Hsc & Hra & Hto).
    rewrite Htr, Hts, Hsel, Hsc, Hra, Hto. subst w1.
    cbn [trace tasks ui toasts]. rewrite filter_cons, last_cons, <- !app_assoc.
    split; [by destruct (decide (Idea.status idea = submitted))|].
    split; [by destruct (decide (Idea.status idea = submitted))|].
    split; [by destruct (last ideas)|].
    split; [by destruct ideas|]. split; [by destruct ideas|done].
Qed.

Lemma reviewer_event_appends_tasks e (w : World ScoreLevel) :
  from_reviewer e = true → ∃ more, tasks (fire e w) = tasks w ++ more.
Proof.
  destruct e as [idea|d level|d text| | |i o]; intros Hrev; try done; unfold fire.
  - rewrite run_handleSelectIdea. by eexists.
  - exists []. by rewrite app_nil_r.
  - exists []. by rewrite app_nil_r.
  - exists []. by rewrite app_nil_r.
  - unfold handleSubmitAssessment.
    destruct (selectedIdea (ui w)) as [idea|]; [destruct (isComplete (ui w))|]; simpl.
    + by eexists.
    + exists []. by rewrite app_nil_r.
    + exists []. by rewrite app_nil_r.
Qed.

Lemma reviewer_events_append_tasks es (w : World ScoreLevel) :
  forallb from_reviewer es = true → ∃ more, tasks (fire_all es w) = tasks w ++ more.
Proof.
  revert w. induction es as [|e es IH]; intros w Hes.
  - exists []. by rewrite app_nil_r.
  - simpl in Hes. apply andb_true_iff in Hes as [He Hes].
    destruct (reviewer_event_appends_tasks e w He) as [more1 H1].
    destruct (IH (fire e w) Hes) as [more2 H2].
    exists (more1 ++ more2). by rewrite fire_all_cons, H2, H1, app_assoc.
Qed.

(** X10.  The answer to a submission acts on the page as it is when the
    answer arrives.  If the reviewer goes on selecting and editing while the
    call is outstanding, its success clears whatever selection and draft
    are then current, and the toast names the idea that was submitted. *)
Theorem answered_submission_clears_current_draft
    (w : World ScoreLevel) idea es (o : Oracle ScoreLevel)
    (Hselected : selectedIdea (ui w) = Some idea)
    (Hcomplete : isComplete (ui w) = true)
    (Hreviewer : forallb from_reviewer es = true)
    (Haccepted : o (submitAssessment (Idea.id idea) (assessmentOf (ui w)))
                 = Fulfilled ()) :
  let w1 := fire_all es (fire ClickSubmit w) in
  let w' := settle (length (tasks w)) o w1 in
  selectedIdea (ui w') = None
  ∧ scores (ui w') = ∅
  ∧ rationales (ui w') = ∅
  ∧ submitting (ui w') = false
  ∧ loading (ui w') = true
  ∧ pendingIdeas (ui w') = pendingIdeas (ui w1)
  ∧ toasts w'
    = toasts w1
      ++ [(dquote +:+ Idea.title idea +:+ dquote +:+ " has been assessed!", "success")].
Proof.
  cbv zeta.
  change (fire ClickSubmit w) with (run_sync (handleSubmitAssessment (ui w)) w).
  rewrite (run_handleSubmitAssessment _ idea) by done.
  match goal with |- context [fire_all es ?w0] =>
    destruct (reviewer_events_append_tasks es w0 Hreviewer) as [more Hmore];
    set (w1 := fire_all es w0) in *
  end.
  simpl in Hmore. rewrite <- app_assoc in Hmore. simpl in Hmore.
  unfold settle. rewrite Hmore, list_lookup_middle by done. simpl.
  by rewrite Haccepted.
Qed.

(** X11.  Right after a selection the Submit button is disabled, and score
    changes enable it only once they have covered each of the seven
    dimensions: at least seven changes are needed. *)
Theorem submit_needs_every_dimension
    idea (calls : list (string * ScoreLevel)) (w : World ScoreLevel)
    (Henabled : enabled ClickSubmit
                  (fire_all (ClickIdea idea :: map (λ c, ScoreChange c.1 c.2) calls) w)
                = true) :
  (∀ dim, dim ∈ requiredDimensions → dim ∈ calls.*1) ∧ 7 ≤ length calls.
Proof.
  apply enabled_from_reviewer in Henabled as (_ & _ & Hcomplete & _); [|done].
  assert (Hall : ∀ dim, dim ∈ requiredDimensions → dim ∈ calls.*1).
  { intros dim Hdim.
    apply isComplete_true with (dim := dim) in Hcomplete; [|done].
    apply scored_true in Hcomplete as (level & Hlevel & _).
    assert (Hsome : is_Some
              (scores (ui (fire_all (map (λ c, ScoreChange c.1 c.2) calls)
                             (fire (ClickIdea idea) w))) !! dim))
      by (by eexists).
    apply scores_after_score_changes in Hsome as [Hbefore|Hcall]; [|done].
    unfold fire in Hbefore. rewrite run_handleSelectIdea in Hbefore.
    simpl in Hbefore. rewrite lookup_empty in Hbefore. by destruct Hbefore. }
  split; [done|].
  assert (Hnodup : NoDup requiredDimensions)
    by (apply (bool_decide_unpack _); by vm_compute).
  pose proof (submseteq_length _ _ (NoDup_submseteq _ _ Hnodup Hall)) as Hlen.
  rewrite length_fmap in Hlen. exact Hlen.
Qed.

End Reachability.

(** ** The handlers on the concrete session *)

#[local] Existing Instance Level_to_boolean.

Lemma drafting_reachable : reachable drafting.
Proof.
  unfold drafting, browsing. rewrite <- fire_all_app.
  apply reachable_fire_all; [apply reachable_mount|].
  vm_compute. reflexivity.
Qed.

Lemma in_flight_reachable : reachable in_flight.
Proof.
  unfold in_flight. apply reachable_fire; [apply drafting_reachable|].
  vm_compute. reflexivity.
Qed.

Lemma bogus_outside : "bogus" ∉ requiredDimensions.
Proof.
  intros H. apply list_elem_of_In in H. simpl in H.
  repeat (destruct H as [H|H]; [discriminate H|]). exact H.
Defined.

(** C1 on the scenario of the specification: the record that reaches the
    store, and the state once the store has accepted it. *)
Lemma submit_sends_record_then_clears_witness :
  selectedIdea (ui drafting) = Some idea2
  ∧ isComplete (ui drafting) = true
  ∧ assessmentOf (ui drafting)
    = {| businessGrowth := Some High; costEfficiency := Some Medium;
         businessResilience := Some High; businessAgility := Some Medium;
         technicalFeasibility := Some High; internalReadiness := Some Medium;
         externalReadiness := Some High;
         assessment_rationales := {[ "businessGrowth" := "opens a new market" ]};
         assessedBy := "Assessment Team" |}
  ∧ ∃ k,
      tasks (fire ClickSubmit drafting)
      = tasks drafting
        ++ [ {| awaited := submitAssessment (Idea.id idea2) (assessmentOf (ui drafting));
                cont := k |} ]
      ∧ selectedIdea (ui (run_sync (k (Fulfilled ())) in_flight)) = None
      ∧ scores (ui (run_sync (k (Fulfilled ())) in_flight)) = ∅
      ∧ rationales (ui (run_sync (k (Fulfilled ())) in_flight)) = ∅.
Proof.
  assert (Hs : selectedIdea (ui drafting) = Some idea2) by (vm_compute; reflexivity).
  assert (Hc : isComplete (ui drafting) = true) by (vm_compute; reflexivity).
  split; [exact Hs|]. split; [exact Hc|]. split; [vm_compute; reflexivity|].
  destruct (submit_sends_record_then_clears (ui drafting) idea2 drafting Hs Hc)
    as (k & l1 & l2 & l3 & l4 & l5 & l6 & l7 & _ & _ & Hrun & Hk).
  exists k. split.
  - unfold fire. rewrite Hrun. reflexivity.
  - pose proof (Hk in_flight) as Hdone. cbv zeta in Hdone.
    destruct Hdone as (H1 & H2 & H3 & _).
    split; [exact H1|]. split; [exact H2|exact H3].
Defined.

(** C2 on a draft with six of the seven dimensions scored. *)
Lemma submit_refused_without_store_call_witness :
  (∃ dim, dim ∈ requiredDimensions ∧ scores (ui partly_scored) !! dim = None)
  ∧ trace (run_sync (handleSubmitAssessment (ui partly_scored)) partly_scored)
    = trace partly_scored
  ∧ tasks (run_sync (handleSubmitAssessment (ui partly_scored)) partly_scored)
    = tasks partly_scored.
Proof.
  assert (H : ∃ dim, dim ∈ requiredDimensions ∧ scores (ui partly_scored) !! dim = None).
  { exists "businessGrowth". split; [apply list_elem_of_here|vm_compute; reflexivity]. }
  split; [exact H|].
  rewrite (submit_refused_without_store_call (ui partly_scored) partly_scored
             (or_intror (or_introl H))).
  split; reflexivity.
Defined.

(** C3 on the scenario, with a store that rejects the submission. *)
Lemma failed_submit_keeps_draft_witness :
  selectedIdea (ui drafting) = Some idea2
  ∧ isComplete (ui drafting) = true
  ∧ settle (length (tasks drafting)) rejecting
           (run_sync (handleSubmitAssessment (ui drafting)) drafting)
    = {| ui := {| pendingIdeas := pendingIdeas (ui drafting);
                  loading := loading (ui drafting);
                  selectedIdea := selectedIdea (ui drafting); submitting := false;
                  scores := scores (ui drafting);
                  rationales := rationales (ui drafting) |};
         tasks := tasks drafting;
         trace := trace drafting
                  ++ [submitAssessment (Idea.id idea2) (assessmentOf (ui drafting))];
         toasts := toasts drafting ++ [("Failed to submit assessment", "error")] |}.
Proof.
  assert (Hs : selectedIdea (ui drafting) = Some idea2) by (vm_compute; reflexivity).
  assert (Hc : isComplete (ui drafting) = true) by (vm_compute; reflexivity).
  split; [exact Hs|]. split; [exact Hc|].
  destruct (failed_submit_keeps_draft (ui drafting) idea2 drafting Hs Hc)
    as (k & _ & _ & Hsettle).
  exact (Hsettle rejecting eq_refl).
Defined.

(** C4 with the three levels: the seven calls of the scenario complete an
    empty draft. *)
Lemma isComplete_iff_all_dimensions_scored_witness :
  (∀ level : Level, to_boolean level = true)
  ∧ isComplete
      (ui (fire_all (map (λ c, ScoreChange c.1 c.2) scenario_scores) browsing))
    = true.
Proof.
  assert (H : ∀ level : Level, to_boolean level = true) by reflexivity.
  split; [exact H|].
  destruct (isComplete_iff_all_dimensions_scored H) as (_ & Hcalls & _).
  apply Hcalls. intros dim Hdim. right. exact Hdim.
Defined.

(** C5 on a [submitted] idea. *)
Lemma select_resets_draft_and_reviews_once_witness :
  selectedIdea (ui (fire (ClickIdea idea1) drafting)) = Some idea1
  ∧ scores (ui (fire (ClickIdea idea1) drafting)) = ∅
  ∧ rationales (ui (fire (ClickIdea idea1) drafting)) = ∅
  ∧ trace (fire (ClickIdea idea1) drafting)
    = trace drafting ++ [updateIdeaStatus (Idea.id idea1) under_review].
Proof.
  pose proof (select_resets_draft_and_reviews_once idea1 drafting) as H.
  cbv zeta in H. destruct H as (H1 & H2 & H3 & _ & _ & _ & _ & H8).
  unfold fire.
  split; [exact H1|]. split; [exact H2|]. split; [exact H3|].
  destruct (decide (Idea.status idea1 = submitted)) as [_|Hne].
  - destruct H8 as (k & _ & Htr & _). exact Htr.
  - exfalso. apply Hne. reflexivity.
Defined.

(** C6 on the scenario. *)
Lemma cancel_clears_selection_only_witness :
  selectedIdea (ui (fire ClickCancel drafting)) = None
  ∧ scores (ui (fire ClickCancel drafting)) = scores (ui drafting)
  ∧ trace (fire ClickCancel drafting) = trace drafting.
Proof.
  pose proof (cancel_clears_selection_only drafting) as H.
  cbv zeta in H. destruct H as (H1 & H2 & _ & _ & _ & _ & H7 & _).
  unfold fire. split; [exact H1|]. split; [exact H2|exact H7].
Defined.

(** The claim of C6 fails on the scenario: the page reaches [drafting], the
    Cancel button is offered there, and after the click the scores and the
    rationale of the draft are still in the state. *)
Lemma cancel_does_not_reset_draft :
  reachable drafting
  ∧ enabled ClickCancel drafting = true
  ∧ scores (ui (fire ClickCancel drafting)) !! "businessGrowth" = Some High
  ∧ scores (ui (fire ClickCancel drafting)) ≠ ∅
  ∧ rationales (ui (fire ClickCancel drafting)) ≠ ∅.
Proof.
  split; [apply drafting_reachable|]. split; [vm_compute; reflexivity|].
  assert (Hs : scores (ui (fire ClickCancel drafting)) !! "businessGrowth" = Some High)
    by (vm_compute; reflexivity).
  assert (Hr : rationales (ui (fire ClickCancel drafting)) !! "businessGrowth"
               = Some "opens a new market") by (vm_compute; reflexivity).
  split; [exact Hs|]. split.
  - intros Hempty. rewrite Hempty, lookup_empty in Hs. discriminate Hs.
  - intros Hempty. rewrite Hempty, lookup_empty in Hr. discriminate Hr.
Qed.

(** C7 on a key that is a dimension and on one that is not. *)
Lemma foreign_dimension_is_stored_witness :
  scores (ui (run_sync (handleScoreChange "businessGrowth" Low) drafting))
  = <["businessGrowth" := Low]> (scores (ui drafting))
  ∧ ("bogus" ∉ requiredDimensions)
  ∧ scores (ui (run_sync (handleScoreChange "bogus" High) drafting))
    = <["bogus" := High]> (scores (ui drafting))
  ∧ isComplete (ui (run_sync (handleScoreChange "bogus" High) drafting))
    = isComplete (ui drafting).
Proof.
  pose proof (foreign_dimension_is_stored "businessGrowth" Low "n/a" drafting) as Hin.
  cbv zeta in Hin. destruct Hin as ((Hin & _) & _).
  split; [exact Hin|]. split; [exact bogus_outside|].
  pose proof (foreign_dimension_is_stored "bogus" High "n/a" drafting) as H.
  cbv zeta in H. destruct H as ((H1 & _) & _ & _ & _ & H5).
  destruct (H5 bogus_outside) as (H6 & _).
  split; [exact H1|exact H6].
Defined.

(** The claim of C7 fails on the scenario: ["bogus"] is none of the seven
    dimensions, yet its score and its rationale are stored, nothing is thrown
    and no toast reports an error. *)
Lemma foreign_dimension_silently_accepted :
  ("bogus" ∉ requiredDimensions)
  ∧ enabled (ScoreChange "bogus" High) drafting = true
  ∧ scores (ui (fire (ScoreChange "bogus" High) drafting)) !! "bogus" = Some High
  ∧ rationales (ui (fire (RationaleChange "bogus" "n/a") drafting)) !! "bogus"
    = Some "n/a"
  ∧ ¬ raises (handleScoreChange "bogus" High)
  ∧ ¬ raises (handleRationaleChange (ScoreLevel := Level) "bogus" "n/a")
  ∧ toasts (fire (ScoreChange "bogus" High) drafting) = toasts drafting
  ∧ toasts (fire (RationaleChange "bogus" "n/a") drafting) = toasts drafting.
Proof.
  split; [exact bogus_outside|].
  split; [vm_compute; reflexivity|]. split; [vm_compute; reflexivity|].
  split; [vm_compute; reflexivity|].
  split; [intros []|]. split; [intros []|].
  split; vm_compute; reflexivity.
Qed.


(** C9 with the answers of the accepting store. *)
Lemma pending_list_is_concatenation_witness :
  (∀ idea, idea ∈ [idea1] → Idea.status idea = submitted)
  ∧ (∀ idea, idea ∈ [idea2] → Idea.status idea = under_review)
  ∧ ∃ k1,
      tasks (run_sync fetchPendingIdeas drafting)
      = tasks drafting ++ [ {| awaited := getIdeasByStatus submitted; cont := k1 |} ]
      ∧ trace (run_sync fetchPendingIdeas drafting)
        = trace drafting ++ [getIdeasByStatus submitted].
Proof.
  assert (H1 : ∀ idea, idea ∈ [idea1] → Idea.status idea = submitted).
  { intros idea H. apply list_elem_of_singleton in H. rewrite H. reflexivity. }
  assert (H2 : ∀ idea, idea ∈ [idea2] → Idea.status idea = under_review).
  { intros idea H. apply list_elem_of_singleton in H. rewrite H. reflexivity. }
  split; [exact H1|]. split; [exact H2|].
  destruct (pending_list_is_concatenation [idea1] [idea2] drafting H1 H2)
    as (k1 & Ht & Htr & _).
  exists k1. split; [exact Ht|exact Htr].
Defined.

(** C10 while the assessment of [idea2] is in flight: the store's answer is
    an event the page accepts, the Submit button is not. *)
Lemma no_second_submit_while_outstanding_witness :
  reachable in_flight
  ∧ 0 < outstanding_submits in_flight
  ∧ enabled (Settle 0 accepting) in_flight = true
  ∧ outstanding_submits in_flight = 1
  ∧ enabled ClickSubmit in_flight = false.
Proof.
  assert (Ho : 0 < outstanding_submits in_flight) by (vm_compute; lia).
  assert (He : enabled (Settle 0 accepting) in_flight = true) by (vm_compute; reflexivity).
  split; [exact in_flight_reachable|]. split; [exact Ho|]. split; [exact He|].
  destruct (no_second_submit_while_outstanding in_flight (Settle 0 accepting)
              in_flight_reachable Ho He) as (H1 & _ & H3 & _).
  split; [exact H1|exact H3].
Defined.


(** ** A remark on stale idea objects

    The guard of [handleSelectIdea] reads the status of the idea object taken
    from the queue, which is the answer of an earlier query.  While the first
    [updateIdeaStatus] is unanswered the queue still lists [idea1] as
    [submitted] and its card stays active during a submission, so selecting
    [idea1] again right after submitting its assessment dispatches a second
    [updateIdeaStatus] behind the [submitAssessment].  What the store makes
    of it is the store's concern. *)
Lemma stale_idea_is_reviewed_again :
  let es := [Settle 0 accepting; Settle 0 accepting; ClickIdea idea1]
            ++ map (λ c, ScoreChange c.1 c.2) scenario_scores
            ++ [ClickSubmit; ClickIdea idea1] in
  enabled_all es mount = true
  ∧ map written (trace (fire_all es mount))
    = [ None; None; Some ("I1", under_review); Some ("I1", assessed);
        Some ("I1", under_review) ].
Proof. split; vm_compute; reflexivity. Qed.

(** ** The page on the concrete session *)

Lemma assessed_idea2_reachable : reachable assessed_idea2.
Proof.
  unfold assessed_idea2. apply reachable_fire; [apply in_flight_reachable|].
  vm_compute. reflexivity.
Qed.

(** X1 while the assessment of [idea2] is in flight. *)
Lemma only_expected_calls_witness :
  reachable in_flight ∧ Forall expected_call (trace in_flight).
Proof.
  split; [exact in_flight_reachable|].
  exact (only_expected_calls in_flight in_flight_reachable).
Defined.

(** X2 once the store has accepted the assessment. *)
Lemma toasts_report_submissions_witness :
  reachable assessed_idea2
  ∧ Forall (λ toast, toast.2 = "success" ∨ toast.2 = "error") (toasts assessed_idea2).
Proof.
  split; [exact assessed_idea2_reachable|].
  exact (toasts_report_submissions assessed_idea2 assessed_idea2_reachable).
Defined.

(** X3 once the store has accepted the assessment. *)
Lemma one_toast_per_settled_submission_witness :
  reachable assessed_idea2
  ∧ submissions assessed_idea2
    = outstanding_submits assessed_idea2 + length (toasts assessed_idea2).
Proof.
  split; [exact assessed_idea2_reachable|].
  exact (one_toast_per_settled_submission assessed_idea2 assessed_idea2_reachable).
Defined.

(** X4 while the assessment of [idea2] is in flight. *)
Lemma submitting_tracks_outstanding_submission_witness :
  reachable in_flight
  ∧ (submitting (ui in_flight) = true ↔ outstanding_submits in_flight = 1).
Proof.
  split; [exact in_flight_reachable|].
  destruct (submitting_tracks_outstanding_submission in_flight in_flight_reachable)
    as (H & _ & _).
  exact H.
Defined.

(** X5 with a store that is down for queries. *)
Lemma failed_load_leaves_spinner_witness :
  (unavailable (getIdeasByStatus submitted) = Rejected
   ∨ unavailable (getIdeasByStatus under_review) = Rejected)
  ∧ ∀ e, enabled e (settle 0 unavailable (settle 0 unavailable mount)) = false.
Proof.
  assert (H : unavailable (getIdeasByStatus submitted) = Rejected
              ∨ unavailable (getIdeasByStatus under_review) = Rejected)
    by (left; reflexivity).
  split; [exact H|].
  pose proof (failed_load_leaves_spinner unavailable H) as Hstuck.
  cbv zeta in Hstuck. destruct Hstuck as (_ & _ & _ & _ & Hnone).
  exact Hnone.
Defined.

(** X6 at the first render. *)
Lemma spinner_has_refresh_in_flight_witness :
  reachable_with answers_queries (mount (ScoreLevel := Level))
  ∧ loading (ui (mount (ScoreLevel := Level))) = true
  ∧ 0 < outstanding_queries (mount (ScoreLevel := Level)).
Proof.
  assert (Hr : reachable_with answers_queries (mount (ScoreLevel := Level)))
    by apply reachable_with_mount.
  assert (Hl : loading (ui (mount (ScoreLevel := Level))) = true) by reflexivity.
  split; [exact Hr|]. split; [exact Hl|].
  exact (spinner_has_refresh_in_flight mount Hr Hl).
Defined.

(** X10 on the scenario: while the assessment of [idea2] is outstanding the
    reviewer selects [idea1] and scores one dimension. *)
Lemma answered_submission_clears_current_draft_witness :
  selectedIdea (ui drafting) = Some idea2
  ∧ isComplete (ui drafting) = true
  ∧ forallb from_reviewer [ClickIdea idea1; ScoreChange "businessGrowth" Low] = true
  ∧ accepting (submitAssessment (Idea.id idea2) (assessmentOf (ui drafting)))
    = Fulfilled ()
  ∧ selectedIdea
      (ui (settle (length (tasks drafting)) accepting
             (fire_all [ClickIdea idea1; ScoreChange "businessGrowth" Low]
                       (fire ClickSubmit drafting))))
    = None.
Proof.
  assert (Hs : selectedIdea (ui drafting) = Some idea2) by (vm_compute; reflexivity).
  assert (Hc : isComplete (ui drafting) = true) by (vm_compute; reflexivity).
  split; [exact Hs|]. split; [exact Hc|]. split; [reflexivity|]. split; [reflexivity|].
  pose proof (answered_submission_clears_current_draft drafting idea2
                [ClickIdea idea1; ScoreChange "businessGrowth" Low] accepting
                Hs Hc eq_refl eq_refl) as H.
  cbv zeta in H. destruct H as (H & _). exact H.
Defined.

(** X11 on the scenario: the seven changes that enable the button. *)
Lemma submit_needs_every_dimension_witness :
  enabled ClickSubmit
    (fire_all (ClickIdea idea2 :: map (λ c, ScoreChange c.1 c.2) scenario_scores)
              browsing)
  = true
  ∧ 7 ≤ length scenario_scores.
Proof.
  assert (H : enabled ClickSubmit
                (fire_all (ClickIdea idea2
                           :: map (λ c, ScoreChange c.1 c.2) scenario_scores)
                          browsing)
              = true) by (vm_compute; reflexivity).
  split; [exact H|].
  destruct (submit_needs_every_dimension idea2 scenario_scores browsing H) as [_ Hlen].
  exact Hlen.
Defined.

(** X12 on the scenario: a score change leaves the queue as it is. *)
Lemma queue_changes_only_when_refresh_completes_witness :
  reachable drafting
  ∧ enabled (ScoreChange "businessGrowth" Low) drafting = true
  ∧ (pendingIdeas (ui (fire (ScoreChange "businessGrowth" Low) drafting))
     = pendingIdeas (ui drafting)
     ∨ ∃ i o sub ur,
         ScoreChange "businessGrowth" Low = Settle i o
         ∧ tasks drafting !! i = Some (fetch2_task sub)
         ∧ o (getIdeasByStatus under_review) = Fulfilled ur
         ∧ pendingIdeas (ui (fire (ScoreChange "businessGrowth" Low) drafting))
           = sub ++ ur
         ∧ loading (ui (fire (ScoreChange "businessGrowth" Low) drafting)) = false
         ∧ selectedIdea (ui (fire (ScoreChange "businessGrowth" Low) drafting))
           = selectedIdea (ui drafting)
         ∧ scores (ui (fire (ScoreChange "businessGrowth" Low) drafting))
           = scores (ui drafting)
         ∧ rationales (ui (fire (ScoreChange "businessGrowth" Low) drafting))
           = rationales (ui drafting)
         ∧ submitting (ui (fire (ScoreChange "businessGrowth" Low) drafting))
           = submitting (ui drafting)).
Proof.
  assert (He : enabled (ScoreChange "businessGrowth" Low) drafting = true)
    by (vm_compute; reflexivity).
  split; [exact drafting_reachable|]. split; [exact He|].
  exact (queue_changes_only_when_refresh_completes
           (ScoreChange "businessGrowth" Low) drafting drafting_reachable He).
Defined.
